(** * speedscope: the frame table and the inverted-callers flamegraph view

    A shallow embedding of [src/views/profile-table-view.tsx] and
    [src/views/inverted-caller-flamegraph-view.tsx], together with the parts
    of [lib/profile], [lib/utils] and [store/getters] they call.

    Layout: the definitions come first, one module per source file, then the
    theorems.  Numbers that are weights are non-negative integers ([N]); the
    one place where the views leave integer arithmetic, the percentage
    columns of the table, is computed on IEEE 754 binary64 values, which is
    what a JavaScript number is. *)

From Stdlib Require Import ZArith NArith Lia.
From Stdlib Require OrderedTypeEx.
From Stdlib Require Import Floats.PrimFloat Floats.SpecFloat Floats.FloatOps.
From stdpp Require Import base option gmap strings list sorting.

Set Default Proof Using "Type".
Set Warnings "-register-all".

(* ===================================================================== *)
(** * Part I: definitions *)
(* ===================================================================== *)

(** ** JavaScript values *)

Module JS.

(** The binary64 number nearest to a non-negative integer (round to nearest,
    ties to even): how JavaScript stores an integer weight. *)
Definition toNumber (n : N) : float :=
  SF2Prim (binary_normalize prec emax (Z.of_N n) 0 false).

(** The result of a function that may [throw new Error(msg)]. *)
Inductive result (A : Type) : Type :=
| Ok (value : A)
| Throw (message : string).
Arguments Ok {A} _.
Arguments Throw {A} _.

Definition bind {A B : Type} (r : result A) (k : A -> result B) : result B :=
  match r with
  | Ok a => k a
  | Throw msg => Throw msg
  end.

Definition threw {A : Type} (r : result A) : bool :=
  match r with
  | Ok _ => false
  | Throw _ => true
  end.

End JS.

Notation "x <-! r ; k" := (JS.bind r (fun x => k))
  (at level 100, r at next level, right associativity).

(** ** lib/profile *)

Module LibProfile.

(** Modelled from the spec: [lib/profile] is not among the sources; its
    frames, samples and profiles follow sections 3 and 4.1 of the spec.

    What identifies a frame: [key] is the stable identity used for equality
    and map keying, beside the display name and the optional file. *)
Record FrameInfo := mkFrameInfo {
  key : string;
  name : string;
  file : option string
}.

(** Modelled from the spec: a frame of a finalized profile, with its
    accumulated self weight and total weight. *)
Record Frame := mkFrame {
  info : FrameInfo;
  selfWeight : N;
  totalWeight : N
}.

#[export] Instance FrameInfo_eq_dec : EqDecision FrameInfo.
Proof. solve_decision. Defined.

#[export] Instance Frame_eq_dec : EqDecision Frame.
Proof. solve_decision. Defined.

Definition getSelfWeight (f : Frame) : N := selfWeight f.
Definition getTotalWeight (f : Frame) : N := totalWeight f.

(** Modelled from the spec: one weighted call-stack sample, outermost caller
    first.  An empty stack is an idle sample. *)
Record Sample := mkSample {
  stack : list FrameInfo;
  weight : N
}.

(** Modelled from the spec: the class [Profile] of lib/profile is not among
    the sources.  A profile owns an ordered collection of weighted call-stack
    samples; the frames, their weights and the total non-idle weight are
    derived from the samples, so every value of this type is a finalized
    profile. *)
Record Profile := mkProfile {
  samples : list Sample
}.

Definition sumOver {A : Type} (g : A -> N) (l : list A) : N :=
  foldr (fun a acc => (g a + acc)%N) 0%N l.

Definition stackKeys (s : Sample) : list string := key <$> stack s.

Definition isIdle (s : Sample) : bool :=
  match stack s with
  | [] => true
  | _ :: _ => false
  end.

(** The sample's weight is attributed directly to the innermost frame. *)
Definition isLeafOf (k : string) (s : Sample) : bool :=
  match last (stack s) with
  | Some f => bool_decide (key f = k)
  | None => false
  end.

Definition occursIn (k : string) (s : Sample) : bool :=
  bool_decide (k ∈ stackKeys s).

(** Modelled from the spec: [getTotalNonIdleWeight] is the sum of weight
    across all non-idle samples. *)
Definition getTotalNonIdleWeight (p : Profile) : N :=
  sumOver (fun s => if isIdle s then 0%N else weight s) (samples p).

(** Modelled from the spec: self-weight is the weight attributed directly to
    the frame. *)
Definition selfWeightOf (p : Profile) (k : string) : N :=
  sumOver (fun s => if isLeafOf k s then weight s else 0%N) (samples p).

(** Modelled from the spec: total-weight is self plus all descendants, a
    sample counted once however often the frame recurs on its stack. *)
Definition totalWeightOf (p : Profile) (k : string) : N :=
  sumOver (fun s => if occursIn k s then weight s else 0%N) (samples p).

(** Frames are created on first use and shared afterwards. *)
Fixpoint getOrInsertAll (st : list FrameInfo) (seen : list FrameInfo)
  : list FrameInfo :=
  match st with
  | [] => seen
  | f :: rest =>
      getOrInsertAll rest
        (if bool_decide (key f ∈ key <$> seen) then seen else seen ++ [f])
  end.

Definition frameInfos (p : Profile) : list FrameInfo :=
  foldl (fun seen s => getOrInsertAll (stack s) seen) [] (samples p).

(** Modelled from the spec: [forEachFrame] visits every distinct frame of the
    profile exactly once, in a stable order (here: order of first use).  The
    visits are returned as the list of visited frames. *)
Definition forEachFrame (p : Profile) : list Frame :=
  (fun i => mkFrame i (selfWeightOf p (key i)) (totalWeightOf p (key i)))
    <$> frameInfos p.

(** *** The grouped call tree *)

(** Modelled from the spec: a node of the grouped call tree, the calls of one
    frame at one position of the tree merged into one node whose weight is
    their sum; [nodeTotalWeight] is the node's own weight plus that of
    everything it calls. *)
Inductive CallTreeNode := mkNode {
  frame : FrameInfo;
  nodeSelfWeight : N;
  nodeTotalWeight : N;
  children : list CallTreeNode
}.

(** Induction over a call tree, the hypothesis available for every child. *)
Fixpoint CallTreeNode_nested_ind (P : CallTreeNode -> Prop)
    (step : forall f self total kids,
        Forall P kids -> P (mkNode f self total kids))
    (n : CallTreeNode) {struct n} : P n :=
  match n with
  | mkNode f self total kids =>
      step f self total kids
        ((fix all (l : list CallTreeNode) : Forall P l :=
            match l with
            | [] => @List.Forall_nil _ P
            | c :: cs =>
                @List.Forall_cons _ P c cs (CallTreeNode_nested_ind P step c) (all cs)
            end) kids)
  end.

(** The child for frame [f] among [nodes], created when there is none yet,
    with [update] applied to it.  Children stay in order of insertion. *)
Fixpoint upsertChild (f : FrameInfo) (update : CallTreeNode -> CallTreeNode)
    (nodes : list CallTreeNode) : list CallTreeNode :=
  match nodes with
  | [] => [update (mkNode f 0 0 [])]
  | n :: rest =>
      if bool_decide (key (frame n) = key f)
      then update n :: rest
      else n :: upsertChild f update rest
  end.

(** One sample added to the tree: its weight goes to the total of every node
    along the stack and to the self weight of the innermost one.  Calls of the
    same frame under the same sequence of callers share a node. *)
Fixpoint addStack (st : list FrameInfo) (w : N) (nodes : list CallTreeNode)
    {struct st} : list CallTreeNode :=
  match st with
  | [] => nodes
  | f :: rest =>
      upsertChild f
        (fun n =>
           mkNode (frame n)
             (match rest with
              | [] => nodeSelfWeight n + w
              | _ :: _ => nodeSelfWeight n
              end)%N
             (nodeTotalWeight n + w)%N
             (addStack rest w (children n)))
        nodes
  end.

(** Modelled from the spec: the grouped call tree of a profile, as the list
    of its root-level nodes. *)
Definition groupedCalltreeRoots (p : Profile) : list CallTreeNode :=
  foldl (fun nodes s => addStack (stack s) (weight s) nodes) [] (samples p).

(** What the visitor of [forEachCallGrouped] is handed for one node: the
    frame, the start offset, the duration (weight) and the depth. *)
Record Call := mkCall {
  callFrame : FrameInfo;
  callStart : N;
  callWeight : N;
  callDepth : nat
}.

(** Pre-order walk: a node before its children, children left to right, each
    starting where its elder sibling ended. *)
Fixpoint visitNode (depth : nat) (start : N) (n : CallTreeNode) {struct n}
  : list Call :=
  match n with
  | mkNode f _ total kids =>
      mkCall f start total depth ::
      (fix visitAll (at_ : N) (ns : list CallTreeNode) {struct ns} : list Call :=
         match ns with
         | [] => []
         | c :: cs =>
             visitNode (S depth) at_ c ++ visitAll (at_ + nodeTotalWeight c)%N cs
         end) start kids
  end.

Fixpoint visitNodes (depth : nat) (start : N) (ns : list CallTreeNode)
  : list Call :=
  match ns with
  | [] => []
  | c :: cs =>
      visitNode depth start c ++ visitNodes depth (start + nodeTotalWeight c)%N cs
  end.

(** Modelled from the spec: [forEachCallGrouped] produces the nodes of the
    grouped call tree with their depth, parent before children.  The visits
    are returned as a list. *)
Definition forEachCallGrouped (p : Profile) : list Call :=
  visitNodes 0 0 (groupedCalltreeRoots p).

(** The root-level nodes among the calls of [forEachCallGrouped]. *)
Definition rootCalls (p : Profile) : list Call :=
  filter (fun c => callDepth c = 0) (forEachCallGrouped p).

(** The calls a walk from depth 0 produces for the given nodes themselves. *)
Fixpoint rootLevel (start : N) (ns : list CallTreeNode) : list Call :=
  match ns with
  | [] => []
  | n :: rest =>
      mkCall (frame n) start (nodeTotalWeight n) 0
        :: rootLevel (start + nodeTotalWeight n)%N rest
  end.

(** [nodes] is one root, of frame [k] and total weight [total]. *)
Definition singleRoot (k : string) (total : N) (nodes : list CallTreeNode) : Prop :=
  exists n, nodes = [n] /\ key (frame n) = k /\ nodeTotalWeight n = total.

(** How often frame [k] occurs on the stack of a sample. *)
Definition occurrences (k : string) (s : Sample) : nat :=
  length (filter (fun g => key g = k) (stack s)).

(** *** Transformations *)

(** Every occurrence of frame [k] on a stack, as the path from that
    occurrence outwards: the frame itself, its caller, the caller's caller and
    so on.  [above] holds the callers seen so far, innermost first. *)
Fixpoint callerStacks (k : string) (above : list FrameInfo) (st : list FrameInfo)
  : list (list FrameInfo) :=
  match st with
  | [] => []
  | g :: rest =>
      (if bool_decide (key g = k) then [g :: above] else [])
        ++ callerStacks k (g :: above) rest
  end.

(** Modelled from the spec: [getInvertedProfileForCallersOf] builds a new
    profile rooted at the frame, with its callers as descendants; every
    occurrence of the frame in the original call stacks contributes its
    stack's weight.  Where the frame occurs on no stack this is the profile
    without samples (4.1: a profile with zero total weight and an empty frame
    set, not an error). *)
Definition getInvertedProfileForCallersOf (p : Profile) (f : FrameInfo) : Profile :=
  mkProfile
    (s ← samples p;
     (fun st => mkSample st (weight s)) <$> callerStacks (key f) [] (stack s)).

(** Modelled from the spec: the open path cut back to its frame of key [k];
    that frame stays open, the frames it had called are closed. *)
Fixpoint unwindTo (k : string) (path : list FrameInfo) : list FrameInfo :=
  match path with
  | [] => []
  | g :: rest => if bool_decide (key g = k) then [g] else g :: unwindTo k rest
  end.

(** Modelled from the spec: a stack walked from its root with the path of the
    frames open so far (4.1, and the explicit stack of (node, ancestor set) of
    the design notes).  A frame that is not open is opened below the path.  A
    frame that is open already recurses, directly or through the frames
    between: the recursive run is collapsed into the one node of its outermost
    occurrence, which thereby carries the weight of the run, and the walk goes
    on from that node. *)
Fixpoint flattenStack (path st : list FrameInfo) : list FrameInfo :=
  match st with
  | [] => path
  | f :: rest =>
      if bool_decide (key f ∈ key <$> path)
      then flattenStack (unwindTo (key f) path) rest
      else flattenStack (path ++ [f]) rest
  end.

(** Modelled from the spec: [getProfileWithRecursionFlattened] collapses any
    frame that recurses directly or indirectly into itself along a stack path
    into a single node carrying the combined weight of the recursive run.  A
    sample keeps its weight and, as [flattening_keeps_self_weights] shows, its
    leaf frame, so that the self weight of the collapsed node is the sum of the
    self weights of the occurrences collapsed into it. *)
Definition getProfileWithRecursionFlattened (p : Profile) : Profile :=
  mkProfile
    ((fun s => mkSample (flattenStack [] (stack s)) (weight s)) <$> samples p).

End LibProfile.

(** ** The profiles of the spec's scenarios *)

Module Scenario.
Import LibProfile.

Definition fn (k : string) : FrameInfo := mkFrameInfo k k None.

(** [main -> a -> b] with weight 40 and [main -> c -> b] with weight 60. *)
Definition twoCallers : Profile :=
  mkProfile
    [ mkSample [fn "main"; fn "a"; fn "b"] 40;
      mkSample [fn "main"; fn "c"; fn "b"] 60 ].

(** The single stack [main -> a -> a -> b] with weight 100. *)
Definition recursive : Profile :=
  mkProfile [ mkSample [fn "main"; fn "a"; fn "a"; fn "b"] 100 ].

(** A frame that recurses through another: [main -> a -> b -> a] with weight
    10, beside [main -> a -> b] with weight 5. *)
Definition indirect : Profile :=
  mkProfile [ mkSample [fn "main"; fn "a"; fn "b"; fn "a"] 10;
              mkSample [fn "main"; fn "a"; fn "b"] 5 ].

(** One sample of weight zero: a profile with a frame and no weight. *)
Definition weightless : Profile :=
  mkProfile [ mkSample [fn "main"] 0 ].

(** Three frames with self weights 5, 20 and 1. *)
Definition threeLeaves : Profile :=
  mkProfile
    [ mkSample [fn "x"] 5; mkSample [fn "y"] 20; mkSample [fn "z"] 1 ].

End Scenario.

(** ** store/getters *)

Module StoreGetters.
Import LibProfile.

(** Modelled from the spec: the getter of store/getters is not among the
    sources; it hands the profile to its own method. *)
Definition getProfileWithRecursionFlattened (profile : Profile) : Profile :=
  LibProfile.getProfileWithRecursionFlattened profile.

Section ColorBuckets.

(** The hash of a frame's identity key and the size of the palette: the spec
    fixes neither. *)
Variable hash : string -> N.
Variable paletteSize : N.

Definition bucketOf (k : string) : N := (hash k mod paletteSize)%N.

(** Modelled from the spec: [getFrameToColorBucket] of store/getters is not
    among the sources.  It assigns each distinct frame of the profile to a
    bucket in a fixed-size palette using a deterministic hash of the frame's
    stable identity key.  The map is keyed by that key. *)
Definition getFrameToColorBucket (profile : Profile) : gmap string N :=
  foldr (fun f m => <[key (info f) := bucketOf (key (info f))]> m) ∅
    (forEachFrame profile).

(** Modelled from the spec: a pure lookup closure over the precomputed map
    ([None] where the map has no entry for the frame). *)
Definition createGetColorBucketForFrame (frameToColorBucket : gmap string N)
    (f : Frame) : option N :=
  frameToColorBucket !! key (info f).

Variable cssColorOfBucket : option N -> string.

(** Modelled from the spec: the CSS variant additionally maps the bucket index
    to a concrete color value. *)
Definition createGetCSSColorForFrame (frameToColorBucket : gmap string N)
    (f : Frame) : string :=
  cssColorOfBucket (createGetColorBucketForFrame frameToColorBucket f).

End ColorBuckets.

End StoreGetters.

(** ** lib/utils *)

Module LibUtils.

(** *** memoizeByShallowEquality *)

(** What [===] sees of a field's value: the value itself for a primitive, the
    address for an object.  Numbers are left out: no input of the two wrapped
    functions has a numeric field. *)
Inductive Identity :=
| Undefined
| Null
| Bool (b : bool)
| Str (s : string)
| Obj (address : positive).

#[export] Instance Identity_eq_dec : EqDecision Identity.
Proof. solve_decision. Defined.

(** [a === b]. *)
Definition strictEq (a b : Identity) : bool := bool_decide (a = b).

(** An input object: the typed contents of its fields, which is all a pure
    function of the fields can read, and the identity of each field by name,
    which is all a shallow comparison can read.  Two input objects with equal
    [fields] are structurally equal; they are the same to a shallow comparison
    only when the identities agree too. *)
Record InputObject (T : Type) := mkInput {
  fields : T;
  identities : gmap string Identity
}.
Arguments mkInput {T} _ _.
Arguments fields {T} _.
Arguments identities {T} _.

(** Reading a field that is absent gives [undefined]. *)
Definition fieldIdentity (o : gmap string Identity) (k : string) : Identity :=
  default Undefined (o !! k).

(** Field-by-field reference equality, over the fields of either object. *)
Definition objectsHaveShallowEquality {T : Type} (a b : InputObject T) : bool :=
  forallb
    (fun k => strictEq (fieldIdentity (identities a) k) (fieldIdentity (identities b) k))
    (elements (dom (identities a)))
  &&
  forallb
    (fun k => strictEq (fieldIdentity (identities a) k) (fieldIdentity (identities b) k))
    (elements (dom (identities b))).

(** The wrapper's single slot, holding the most recent input and result.
    [invocations] counts the runs of the wrapped function; the wrapper never
    reads it. *)
Record Memo (T R : Type) := mkMemo {
  last : option (InputObject T * R);
  invocations : nat
}.
Arguments mkMemo {T R} _ _.
Arguments last {T R} _.
Arguments invocations {T R} _.

Definition fresh {T R : Type} : Memo T R := mkMemo None 0.

(** Modelled from the spec: [memoizeByShallowEquality] of lib/utils is not
    among the sources.  The wrapped function compares the new input object to
    the previous one field by field using reference equality; if all fields
    are reference-equal, the previously computed result is returned without
    invoking [f].  Only the most recent pair is retained.  One call of the
    wrapped function takes the slot and returns the result and the slot. *)
Definition memoizeByShallowEquality {T R : Type} (f : T -> R)
    (args : InputObject T) (slot : Memo T R) : R * Memo T R :=
  match last slot with
  | Some (previous, result) =>
      if objectsHaveShallowEquality previous args
      then (result, slot)
      else
        let result := f (fields args) in
        (result, mkMemo (Some (args, result)) (S (invocations slot)))
  | None =>
      let result := f (fields args) in
      (result, mkMemo (Some (args, result)) (S (invocations slot)))
  end.

(** The slot holds a result of [f] for the input it keeps. *)
Definition coherent {T R : Type} (f : T -> R) (slot : Memo T R) : Prop :=
  forall kept result, last slot = Some (kept, result) -> result = f (fields kept).

(** *** sortBy *)

(** [a < b] on a type of sort keys. *)
Class JSLess (K : Type) := less : K -> K -> bool.

(** A string whose characters are all ASCII: its bytes are then the UTF-16
    code units of the JavaScript string. *)
Fixpoint isAscii (s : string) : bool :=
  match s with
  | EmptyString => true
  | String c rest => (Ascii.nat_of_ascii c <? 128) && isAscii rest
  end.

(** [<] on numbers, and on strings the order of the code units, which on
    ASCII strings ([isAscii]) is the order of the bytes. *)
#[export] Instance number_less : JSLess N := N.ltb.
#[export] Instance string_less : JSLess string := String.ltb.

(** The three-way comparison of two elements by their keys: negative when
    [a] sorts first, positive when [b] does. *)
Definition comparator {T K : Type} `{JSLess K} (key : T -> K) (a b : T) : Z :=
  if less (key a) (key b) then (-1)%Z
  else if less (key b) (key a) then 1%Z
  else 0%Z.

(** [x] put into a sorted list, in front of the first element it does not
    compare greater than. *)
Fixpoint insertSorted {T : Type} (cmp : T -> T -> Z) (x : T) (l : list T)
  : list T :=
  match l with
  | [] => [x]
  | y :: rest =>
      if (0 <? cmp x y)%Z then y :: insertSorted cmp x rest else x :: y :: rest
  end.

(** Modelled from the spec: [sortBy] of lib/utils is not among the sources.
    It orders a list by a key, ascending (the spec's scenario gets the
    descending order from it by a reversal); elements with equal keys keep
    their order.  The array sorted in place is returned as the new list. *)
Definition sortBy {K : Type} `{JSLess K} {T : Type} (ts : list T) (key : T -> K)
  : list T :=
  foldr (insertSorted (comparator key)) [] ts.

(** [String.prototype.toLowerCase] of an ASCII string ([isAscii]): the letters
    A to Z are lowered and no other ASCII character changes.  A character
    outside ASCII is left as it is, where JavaScript lowers the letters among
    them: what is proved of the order by name is proved of ASCII names. *)
Definition lowerAscii (c : Ascii.ascii) : Ascii.ascii :=
  let n := Ascii.nat_of_ascii c in
  if (65 <=? n)%nat && (n <=? 90)%nat then Ascii.ascii_of_nat (n + 32) else c.

Fixpoint toLowerCase (s : string) : string :=
  match s with
  | EmptyString => EmptyString
  | String c rest => String (lowerAscii c) (toLowerCase rest)
  end.

(** Modelled from the spec: [noop] of lib/utils is not among the sources; a
    callback that does nothing, whatever it is called with. *)
Definition noop {Arg Store : Type} (args : Arg) (store : Store) : Store := store.

End LibUtils.

(** ** The store's state, as the views read it *)

Module Store.
Import LibProfile.

(** The declarations of the store and of the application's state are not among
    the sources; the fields are the ones the two views read, optional where a
    view tests them before use. *)
Record CallerCalleeState (ViewState : Type) := mkCallerCallee {
  selectedFrame : Frame;
  invertedCallerFlamegraph : ViewState
}.
Arguments mkCallerCallee {ViewState} _ _.
Arguments selectedFrame {ViewState} _.
Arguments invertedCallerFlamegraph {ViewState} _.

Record SandwichViewState (ViewState : Type) := mkSandwich {
  callerCallee : option (CallerCalleeState ViewState)
}.
Arguments mkSandwich {ViewState} _.
Arguments callerCallee {ViewState} _.

Record ActiveProfileState (ViewState : Type) := mkActiveProfileState {
  profile : option Profile;
  sandwichViewState : SandwichViewState ViewState;
  index : nat
}.
Arguments mkActiveProfileState {ViewState} _ _ _.
Arguments profile {ViewState} _.
Arguments sandwichViewState {ViewState} _.
Arguments index {ViewState} _.

Record AppState (GLCanvas SortMethod : Type) := mkAppState {
  flattenRecursion : bool;
  glCanvas : option GLCanvas;
  tableSortMethod : SortMethod
}.
Arguments mkAppState {GLCanvas SortMethod} _ _ _.
Arguments flattenRecursion {GLCanvas SortMethod} _.
Arguments glCanvas {GLCanvas SortMethod} _.
Arguments tableSortMethod {GLCanvas SortMethod} _.

Inductive FlamechartID :=
| LEFT_HEAVY
| CHRONO
| SANDWICH_INVERTED_CALLERS
| SANDWICH_CALLEES.

(** [if (!x) throw new Error(message)]. *)
Definition required {A : Type} (x : option A) (message : string) : JS.result A :=
  match x with
  | Some a => JS.Ok a
  | None => JS.Throw message
  end.

End Store.

(** ** views/profile-table-view.tsx *)

Module ProfileTableView.
Import LibProfile Store.

Inductive SortField :=
| SYMBOL_NAME
| SELF
| TOTAL.

Inductive SortDirection :=
| ASCENDING
| DESCENDING.

Record SortMethod := mkSortMethod {
  field : SortField;
  direction : SortDirection
}.

#[export] Instance SortField_eq_dec : EqDecision SortField.
Proof. solve_decision. Defined.

#[export] Instance SortDirection_eq_dec : EqDecision SortDirection.
Proof. solve_decision. Defined.

(** The actions the table dispatches. *)
Inductive Action :=
| setSelectedFrame (profileIndex : nat) (args : option Frame)
| setTableSortMethod (sortMethod : SortMethod).

Record HBarProps := mkHBarProps { perc : float }.

(** The bar [HBarDisplay] draws: the width of its filled part, in percent. *)
Record HBar := mkHBar { filledWidth : float }.

Definition HBarDisplay (props : HBarProps) : HBar := mkHBar (perc props).

(** Whether the icon's upward and downward triangle are filled as active. *)
Definition SortIcon (activeDirection : option SortDirection) : bool * bool :=
  (bool_decide (activeDirection = Some ASCENDING),
   bool_decide (activeDirection = Some DESCENDING)).

Record ProfileTableRowViewProps := mkRowProps {
  frame : Frame;
  index : nat;
  profile : Profile;
  selectedFrame : option Frame;
  setSelectedFrameOf : Frame -> Action;
  getCSSColorForFrame : Frame -> string
}.

(** One rendered row.  The two numeric cells hold what the row hands to
    [profile.formatValue] and to [formatPercent] (neither is among the
    sources) and the bar it draws. *)
Record TableRow := mkTableRow {
  rowKey : nat;
  onClick : Action;
  rowEven : bool;
  rowSelected : bool;
  totalValue : N;
  totalPerc : float;
  totalBar : HBar;
  selfValue : N;
  selfPerc : float;
  selfBar : HBar;
  title : option string;
  chitColor : string;
  label : string
}.

(** [frame === selectedFrame].  A frame object is modelled by its value: a
    profile holds one frame object per key, so that two of its frames are the
    same object exactly when they are the same value. *)
Definition sameFrame (a : Frame) (b : option Frame) : bool :=
  match b with
  | Some b => bool_decide (a = b)
  | None => false
  end.

Definition ProfileTableRowView (props : ProfileTableRowViewProps) : TableRow :=
  let totalWeight := getTotalWeight (frame props) in
  let selfWeight := getSelfWeight (frame props) in
  let totalPerc :=
    PrimFloat.div (PrimFloat.mul 100%float (JS.toNumber totalWeight))
      (JS.toNumber (getTotalNonIdleWeight (profile props))) in
  let selfPerc :=
    PrimFloat.div (PrimFloat.mul 100%float (JS.toNumber selfWeight))
      (JS.toNumber (getTotalNonIdleWeight (profile props))) in
  let selected := sameFrame (frame props) (selectedFrame props) in
  mkTableRow
    (index props)
    (setSelectedFrameOf props (frame props))
    (Nat.eqb (index props mod 2) 0)
    selected
    totalWeight totalPerc (HBarDisplay (mkHBarProps totalPerc))
    selfWeight selfPerc (HBarDisplay (mkHBarProps selfPerc))
    (file (info (frame props)))
    (getCSSColorForFrame props (frame props))
    (name (info (frame props))).

Record ProfileTableViewProps := mkTableProps {
  tableProfile : Profile;
  tableSelectedFrame : option Frame;
  tableGetCSSColorForFrame : Frame -> string;
  sortMethod : SortMethod;
  tableSetSelectedFrame : option Frame -> Action;
  setSortMethod : SortMethod -> Action
}.

(** The sort method [onSortClick] hands to [setSortMethod] when the header of
    column [clicked] is clicked. *)
Definition onSortClick (sortMethod : SortMethod) (clicked : SortField) : SortMethod :=
  if bool_decide (field sortMethod = clicked)
  then
    mkSortMethod clicked
      (if bool_decide (direction sortMethod = ASCENDING)
       then DESCENDING else ASCENDING)
  else
    match clicked with
    | SYMBOL_NAME => mkSortMethod clicked ASCENDING
    | SELF => mkSortMethod clicked DESCENDING
    | TOTAL => mkSortMethod clicked DESCENDING
    end.

(** The active direction each of the three header icons is given. *)
Record TableHeader := mkTableHeader {
  totalIcon : option SortDirection;
  selfIcon : option SortDirection;
  symbolNameIcon : option SortDirection
}.

Definition tableHeader (sortMethod : SortMethod) : TableHeader :=
  let activeDirection column :=
    if bool_decide (field sortMethod = column)
    then Some (direction sortMethod) else None in
  mkTableHeader (activeDirection TOTAL) (activeDirection SELF)
    (activeDirection SYMBOL_NAME).

(** The icon in the header of a column. *)
Definition iconOf (header : TableHeader) (column : SortField) : option SortDirection :=
  match column with
  | TOTAL => totalIcon header
  | SELF => selfIcon header
  | SYMBOL_NAME => symbolNameIcon header
  end.

(** What it means for frame [a] to stand before frame [b] in a list sorted by
    [m]: [b] does not compare less than [a] by the key of the field, or the
    other way round for the descending direction.  Names are compared as the
    ASCII strings they are taken to be ([LibUtils.isAscii]). *)
Definition inSortOrder (m : SortMethod) (a b : Frame) : Prop :=
  match field m, direction m with
  | SYMBOL_NAME, ASCENDING =>
      String.ltb (LibUtils.toLowerCase (name (info b)))
                 (LibUtils.toLowerCase (name (info a))) = false
  | SYMBOL_NAME, DESCENDING =>
      String.ltb (LibUtils.toLowerCase (name (info a)))
                 (LibUtils.toLowerCase (name (info b))) = false
  | SELF, ASCENDING => (getSelfWeight a <= getSelfWeight b)%N
  | SELF, DESCENDING => (getSelfWeight b <= getSelfWeight a)%N
  | TOTAL, ASCENDING => (getTotalWeight a <= getTotalWeight b)%N
  | TOTAL, DESCENDING => (getTotalWeight b <= getTotalWeight a)%N
  end.

Section FrameList.

(** [sortBy] of lib/utils: the array it sorts in place, as the new list. *)
Variable sortBy : forall K : Type, LibUtils.JSLess K ->
  list Frame -> (Frame -> K) -> list Frame.

Definition frameList (profile : Profile) (sortMethod : SortMethod) : list Frame :=
  let frameList := forEachFrame profile in
  let frameList :=
    match field sortMethod with
    | SYMBOL_NAME =>
        sortBy string LibUtils.string_less frameList
          (fun f => LibUtils.toLowerCase (name (info f)))
    | SELF => sortBy N LibUtils.number_less frameList getSelfWeight
    | TOTAL => sortBy N LibUtils.number_less frameList getTotalWeight
    end in
  match direction sortMethod with
  | DESCENDING => reverse frameList
  | ASCENDING => frameList
  end.

(** The rows for the indices [firstIndex .. lastIndex]; reading a frame past
    the end of the list gives [undefined], whose weight the row cannot ask
    for. *)
Definition renderItems (props : ProfileTableViewProps)
    (firstIndex lastIndex : nat) : JS.result (list TableRow) :=
  let frameList := frameList (tableProfile props) (sortMethod props) in
  foldr
    (fun i rows =>
       match frameList !! i with
       | Some f =>
           rest <-! rows;
           JS.Ok
             (ProfileTableRowView
                (mkRowProps f i (tableProfile props) (tableSelectedFrame props)
                   (fun f => tableSetSelectedFrame props (Some f))
                   (tableGetCSSColorForFrame props)) :: rest)
       | None => JS.Throw "TypeError: frame is undefined"
       end)
    (JS.Ok [])
    (seq firstIndex (S lastIndex - firstIndex)).

End FrameList.

(** One item per frame for the scrollable list, each of the height of a frame
    ([Sizes.FRAME_HEIGHT], a constant of the style sheet). *)
Definition listItems (frameHeight : N) (frameList : list Frame) : list N :=
  (fun _ => frameHeight) <$> frameList.

(** [frameList.indexOf(f)]: the first position that holds the frame itself
    ([===], as in [sameFrame]), [None] where JavaScript answers -1. *)
Fixpoint indexOf (frameList : list Frame) (f : Frame) : option nat :=
  match frameList with
  | [] => None
  | g :: rest =>
      if sameFrame g (Some f) then Some 0 else S <$> indexOf rest f
  end.

(** A mounted [ScrollableListView], by the identity of the component. *)
Definition ScrollableListView : Type := positive.

(** The callback the table gives the list view as its [ref], called with the
    view that was mounted ([None] for null).  [current] is what
    [listViewRef.current] holds; the result is what it holds afterwards and
    the index [scrollIndexIntoView] was called with, if it was called. *)
Definition listViewCallback (selectedFrame : option Frame) (frameList : list Frame)
    (current listView : option ScrollableListView)
  : option ScrollableListView * option nat :=
  if bool_decide (listView = current) then (current, None)
  else
    let current := listView in
    match selectedFrame, listView with
    | Some selectedFrame, Some _ =>
        match indexOf frameList selectedFrame with
        | Some index => (current, Some index)
        | None => (current, None)
        end
    | _, _ => (current, None)
    end.

Record ProfileTableViewContainerProps (ViewState : Type) := mkContainerProps {
  activeProfileState : ActiveProfileState ViewState
}.
Arguments mkContainerProps {ViewState} _.
Arguments activeProfileState {ViewState} _.

Section Container.

Variables (ViewState GLCanvas : Type).
Variables (hash : string -> N) (paletteSize : N).
Variable cssColorOfBucket : option N -> string.

Definition ProfileTableViewContainer
    (ownProps : ProfileTableViewContainerProps ViewState)
    (state : AppState GLCanvas SortMethod) : JS.result ProfileTableViewProps :=
  let activeProfileState := activeProfileState ownProps in
  profile <-! required (Store.profile activeProfileState) "profile missing";
  let tableSortMethod := tableSortMethod state in
  let callerCallee := callerCallee (sandwichViewState activeProfileState) in
  let selectedFrame :=
    match callerCallee with
    | Some callerCallee => Some (Store.selectedFrame callerCallee)
    | None => None
    end in
  let frameToColorBucket :=
    StoreGetters.getFrameToColorBucket hash paletteSize profile in
  let getCSSColorForFrame :=
    StoreGetters.createGetCSSColorForFrame cssColorOfBucket frameToColorBucket in
  JS.Ok
    (mkTableProps profile selectedFrame getCSSColorForFrame tableSortMethod
       (setSelectedFrame (Store.index activeProfileState))
       setTableSortMethod).

End Container.

Arguments ProfileTableViewContainer {_ _} _ _ _ _ _.

End ProfileTableView.

Module ScenarioRows.
Import LibProfile ProfileTableView.

(** The row of the only frame of [Scenario.weightless]. *)
Definition weightlessRow : ProfileTableRowViewProps :=
  mkRowProps (mkFrame (Scenario.fn "main") 0 0) 0 Scenario.weightless
    None (fun f => setSelectedFrame 0 (Some f)) (fun _ => "#000").

End ScenarioRows.

(** ** views/inverted-caller-flamegraph-view.tsx *)

Module InvertedCallerFlamegraphView.
Import LibProfile Store.

(** What [new Flamechart] is constructed from.  The class itself (the layout)
    is not among the sources; a flamechart is kept as its four sources, the
    two getters of the profile already applied. *)
Record Flamechart := mkFlamechart {
  getTotalWeight : N;
  forEachCall : list Call;
  formatValue : N -> string;
  getColorBucketForFrame : Frame -> option N
}.

Record InvertedCallerProfileArgs := mkProfileArgs {
  profile : Profile;
  frame : Frame;
  flattenRecursion : bool
}.

(** The function wrapped into [getInvertedCallerProfile]. *)
Definition invertedCallerProfile (args : InvertedCallerProfileArgs) : Profile :=
  let p := getInvertedProfileForCallersOf (profile args) (info (frame args)) in
  if flattenRecursion args
  then LibProfile.getProfileWithRecursionFlattened p
  else p.

Definition getInvertedCallerProfile
  : LibUtils.InputObject InvertedCallerProfileArgs ->
    LibUtils.Memo InvertedCallerProfileArgs Profile ->
    Profile * LibUtils.Memo InvertedCallerProfileArgs Profile :=
  LibUtils.memoizeByShallowEquality invertedCallerProfile.

Record InvertedCallerFlamegraphArgs := mkFlamegraphArgs {
  invertedCallerProfileOf : Profile;
  getColorBucketForFrameOf : Frame -> option N
}.

Section View.

Variables (GLCanvas CanvasContext FlamechartRenderer : Type).
Variables (ViewStateValue CallbackArg AppStore SortMethod : Type).

(** [Profile.formatValue], the store's getters of the canvas context and of
    the renderer, and the hook that builds the flamechart's setters: none is
    among the sources. *)
Variable profileFormatValue : Profile -> N -> string.
Variables (hash : string -> N) (paletteSize : N).
Variable cssColorOfBucket : option N -> string.
Variable getCanvasContext : GLCanvas -> CanvasContext.
Variable getInvertedCallerFlamegraphRenderer :
  CanvasContext -> Flamechart -> FlamechartRenderer.

(** The function wrapped into [getInvertedCallerFlamegraph]. *)
Definition invertedCallerFlamegraph (args : InvertedCallerFlamegraphArgs)
  : Flamechart :=
  mkFlamechart
    (getTotalNonIdleWeight (invertedCallerProfileOf args))
    (forEachCallGrouped (invertedCallerProfileOf args))
    (profileFormatValue (invertedCallerProfileOf args))
    (getColorBucketForFrameOf args).

Definition getInvertedCallerFlamegraph
  : LibUtils.InputObject InvertedCallerFlamegraphArgs ->
    LibUtils.Memo InvertedCallerFlamegraphArgs Flamechart ->
    Flamechart * LibUtils.Memo InvertedCallerFlamegraphArgs Flamechart :=
  LibUtils.memoizeByShallowEquality invertedCallerFlamegraph.

(** The value of one prop of [FlamechartWrapper]. *)
Inductive PropValue :=
| PBool (b : bool)
| PFlamechart (flamechart : Flamechart)
| PRenderer (renderer : FlamechartRenderer)
| PCanvasContext (context : CanvasContext)
| PCSSColor (getCSSColorForFrame : Frame -> string)
| PCallback (callback : CallbackArg -> AppStore -> AppStore)
| PState (value : ViewStateValue).

(** The props of a JSX element: attributes and spread objects are applied
    left to right, a later one replacing an earlier one of the same name. *)
Definition jsxProps (attributes : list (gmap string PropValue))
  : gmap string PropValue :=
  foldl (fun props attribute => attribute ∪ props) ∅ attributes.

Variable useFlamechartSetters : FlamechartID -> nat -> gmap string PropValue.

Record FlamechartViewContainerProps := mkViewProps {
  activeProfileState : ActiveProfileState (gmap string PropValue)
}.

(** The props the view renders [FlamechartWrapper] with, or what it throws.
    The two derivations are called through their memoizing wrappers in the
    source; a wrapper returns what the wrapped function returns (lemma
    [memoized_returns_f] below), so the view is written over the wrapped
    functions and carries no slots. *)
Definition InvertedCallerFlamegraphView (ownProps : FlamechartViewContainerProps)
    (state : AppState GLCanvas SortMethod)
  : JS.result (gmap string PropValue) :=
  let activeProfileState := activeProfileState ownProps in
  let index := Store.index activeProfileState in
  let flattenRecursion := Store.flattenRecursion state in
  profile <-! required (Store.profile activeProfileState) "profile missing";
  glCanvas <-! required (Store.glCanvas state) "glCanvas missing";
  callerCallee <-!
    required (callerCallee (sandwichViewState activeProfileState))
      "callerCallee missing";
  let selectedFrame := Store.selectedFrame callerCallee in
  let profile :=
    if flattenRecursion
    then StoreGetters.getProfileWithRecursionFlattened profile
    else profile in
  let frameToColorBucket :=
    StoreGetters.getFrameToColorBucket hash paletteSize profile in
  let getColorBucketForFrame :=
    StoreGetters.createGetColorBucketForFrame frameToColorBucket in
  let getCSSColorForFrame :=
    StoreGetters.createGetCSSColorForFrame cssColorOfBucket frameToColorBucket in
  let canvasContext := getCanvasContext glCanvas in
  let flamechart :=
    invertedCallerFlamegraph
      (mkFlamegraphArgs
         (invertedCallerProfile (mkProfileArgs profile selectedFrame flattenRecursion))
         getColorBucketForFrame) in
  let flamechartRenderer :=
    getInvertedCallerFlamegraphRenderer canvasContext flamechart in
  JS.Ok
    (jsxProps
       [ {[ "renderInverted" := PBool true ]};
         {[ "flamechart" := PFlamechart flamechart ]};
         {[ "flamechartRenderer" := PRenderer flamechartRenderer ]};
         {[ "canvasContext" := PCanvasContext canvasContext ]};
         {[ "getCSSColorForFrame" := PCSSColor getCSSColorForFrame ]};
         useFlamechartSetters SANDWICH_INVERTED_CALLERS index;
         {[ "setSelectedNode" := PCallback LibUtils.noop ]};
         Store.invertedCallerFlamegraph callerCallee ]).

(** Selecting a node in the rendered flamechart: the wrapper calls the
    [setSelectedNode] prop it was given, if it is a callback. *)
Definition selectNode (props : gmap string PropValue) (node : CallbackArg)
    (store : AppStore) : AppStore :=
  match props !! "setSelectedNode" with
  | Some (PCallback setSelectedNode) => setSelectedNode node store
  | _ => store
  end.

End View.

Arguments PBool {_ _ _ _ _} _.
Arguments PFlamechart {_ _ _ _ _} _.
Arguments PRenderer {_ _ _ _ _} _.
Arguments PCanvasContext {_ _ _ _ _} _.
Arguments PCSSColor {_ _ _ _ _} _.
Arguments PCallback {_ _ _ _ _} _.
Arguments PState {_ _ _ _ _} _.
Arguments jsxProps {_ _ _ _ _} _.
Arguments selectNode {_ _ _ _ _} _ _ _.
Arguments mkViewProps {_ _ _ _ _} _.
Arguments activeProfileState {_ _ _ _ _} _.
Arguments InvertedCallerFlamegraphView {_ _ _ _ _ _ _} _ _ _ _ _ _ _ _ _.

End InvertedCallerFlamegraphView.

(** ** A render of the scenario with two callers *)

Module ScenarioViews.
Import LibProfile LibUtils Store InvertedCallerFlamegraphView.

(** The views' surroundings, as small as they can be: a canvas, a context and
    a renderer without content, nodes named by a string, and a store that
    holds the selected node. *)
Definition Props : Type := gmap string (PropValue unit unit N string (option string)).

Definition selectSetter : PropValue unit unit N string (option string) :=
  PCallback (fun node _ => Some node).

Definition hoverSetter : PropValue unit unit N string (option string) :=
  PCallback (fun _ store => store).

Definition setters (id : FlamechartID) (index : nat) : Props :=
  {[ "setSelectedNode" := selectSetter; "setNodeHover" := hoverSetter ]}.

Definition viewState : Props := {[ "selectedNode" := PState 0%N ]}.

Definition selectedB : Frame := mkFrame (Scenario.fn "b") 100 100.

Definition ownProps : FlamechartViewContainerProps unit unit N string (option string) :=
  mkViewProps
    (mkActiveProfileState (Some Scenario.twoCallers)
       (mkSandwich (Some (mkCallerCallee selectedB viewState))) 0).

Definition ownPropsWithoutProfile
  : FlamechartViewContainerProps unit unit N string (option string) :=
  mkViewProps
    (mkActiveProfileState None
       (mkSandwich (Some (mkCallerCallee selectedB viewState))) 0).

Definition tableOwnProps : ProfileTableView.ProfileTableViewContainerProps Props :=
  ProfileTableView.mkContainerProps
    (mkActiveProfileState (Some Scenario.twoCallers) (mkSandwich None) 0).

Definition state : AppState unit ProfileTableView.SortMethod :=
  mkAppState false (Some tt)
    (ProfileTableView.mkSortMethod ProfileTableView.SELF ProfileTableView.DESCENDING).

Definition render (ownProps : FlamechartViewContainerProps unit unit N string (option string))
  : JS.result Props :=
  InvertedCallerFlamegraphView (fun _ _ => "") (fun k => N.of_nat (String.length k)) 8
    (fun _ => "#000") (fun canvas => canvas) (fun _ _ => tt) setters ownProps state.

(** Three input objects for [getInvertedCallerProfile]: one, one built anew
    from the same objects, and one whose profile is an equal profile at
    another address. *)
Definition args : InvertedCallerProfileArgs :=
  mkProfileArgs Scenario.twoCallers selectedB false.

Definition firstInput : InputObject InvertedCallerProfileArgs :=
  mkInput args
    {[ "profile" := Obj 1; "frame" := Obj 2; "flattenRecursion" := Bool false ]}.

Definition sameFieldsInput : InputObject InvertedCallerProfileArgs :=
  mkInput args
    {[ "flattenRecursion" := Bool false; "frame" := Obj 2; "profile" := Obj 1 ]}.

Definition rebuiltProfileInput : InputObject InvertedCallerProfileArgs :=
  mkInput args
    {[ "profile" := Obj 3; "frame" := Obj 2; "flattenRecursion" := Bool false ]}.

(** The table of the same scenario: the modelled [sortBy], the props of a
    table sorted by self weight with [b] selected, a container on the active
    profile of the inverted-callers view, and the table's first row. *)
Definition modelSortBy (K : Type) (less : JSLess K) (ts : list Frame)
    (key : Frame -> K) : list Frame :=
  LibUtils.sortBy ts key.

Definition tableProps : ProfileTableView.ProfileTableViewProps :=
  ProfileTableView.mkTableProps Scenario.twoCallers (Some selectedB)
    (fun _ => "#000")
    (ProfileTableView.mkSortMethod ProfileTableView.SELF ProfileTableView.DESCENDING)
    (ProfileTableView.setSelectedFrame 0)
    ProfileTableView.setTableSortMethod.

Definition tableOwnPropsSelected
  : ProfileTableView.ProfileTableViewContainerProps Props :=
  ProfileTableView.mkContainerProps (activeProfileState ownProps).

Definition containerProps : ProfileTableView.ProfileTableViewProps :=
  ProfileTableView.mkTableProps Scenario.twoCallers (Some selectedB)
    (StoreGetters.createGetCSSColorForFrame (fun _ => "#000")
       (StoreGetters.getFrameToColorBucket (fun k => N.of_nat (String.length k)) 8
          Scenario.twoCallers))
    (ProfileTableView.mkSortMethod ProfileTableView.SELF ProfileTableView.DESCENDING)
    (ProfileTableView.setSelectedFrame 0)
    ProfileTableView.setTableSortMethod.

Definition firstRow : ProfileTableView.TableRow :=
  ProfileTableView.ProfileTableRowView
    (ProfileTableView.mkRowProps selectedB 0 Scenario.twoCallers (Some selectedB)
       (fun f => ProfileTableView.setSelectedFrame 0 (Some f))
       (ProfileTableView.tableGetCSSColorForFrame containerProps)).

End ScenarioViews.

(* ===================================================================== *)
(** * Part II: theorems *)
(* ===================================================================== *)

(** ** Weights of a profile *)

Section ProfileWeights.
Import LibProfile.

Lemma sumOver_cons {A : Type} (g : A -> N) (a : A) (l : list A) :
  sumOver g (a :: l) = (g a + sumOver g l)%N.
Proof. reflexivity. Qed.

Lemma sumOver_app {A : Type} (g : A -> N) (l1 l2 : list A) :
  sumOver g (l1 ++ l2) = (sumOver g l1 + sumOver g l2)%N.
Proof.
  induction l1 as [|a l1 IH].
  - reflexivity.
  - change ((a :: l1) ++ l2) with (a :: (l1 ++ l2)).
    rewrite !sumOver_cons, IH. lia.
Qed.

Lemma sumOver_le {A : Type} (g h : A -> N) (l : list A) :
  (forall a, a ∈ l -> (g a <= h a)%N) ->
  (sumOver g l <= sumOver h l)%N.
Proof.
  induction l as [|a l IH]; intros Hle.
  - reflexivity.
  - rewrite !sumOver_cons.
    pose proof (Hle a (list_elem_of_here a l)) as Ha.
    assert (sumOver g l <= sumOver h l)%N as Hl.
    { apply IH. intros b Hb. apply Hle. now apply list_elem_of_further. }
    lia.
Qed.

Lemma sumOver_ext {A : Type} (g h : A -> N) (l : list A) :
  (forall a, a ∈ l -> g a = h a) ->
  sumOver g l = sumOver h l.
Proof.
  intros Heq. apply N.le_antisymm; apply sumOver_le; intros a Ha;
    rewrite (Heq a Ha); reflexivity.
Qed.

Lemma sumOver_zero {A : Type} (g : A -> N) (l : list A) :
  sumOver g l = 0%N -> forall a, a ∈ l -> g a = 0%N.
Proof.
  induction l as [|b l IH]; intros Hsum a Ha.
  - inversion Ha.
  - rewrite sumOver_cons in Hsum.
    apply elem_of_cons in Ha as [-> | Ha].
    + lia.
    + apply IH; [lia | exact Ha].
Qed.

(** The innermost frame of a stack is on the stack. *)
Lemma isLeafOf_occursIn (k : string) (s : Sample) :
  isLeafOf k s = true -> occursIn k s = true.
Proof.
  unfold isLeafOf, occursIn, stackKeys.
  destruct (last (stack s)) as [f|] eqn:Hlast; [|discriminate].
  intros Hk. apply bool_decide_eq_true in Hk. subst k.
  apply bool_decide_eq_true.
  apply list_elem_of_fmap. exists f. split; [reflexivity|].
  apply last_Some in Hlast as [l' ->].
  apply elem_of_app. right. apply list_elem_of_here.
Qed.

Lemma occursIn_not_idle (k : string) (s : Sample) :
  occursIn k s = true -> isIdle s = false.
Proof.
  unfold occursIn, stackKeys, isIdle.
  destruct (stack s); [|reflexivity].
  intros H. apply bool_decide_eq_true in H. inversion H.
Qed.

Lemma selfWeightOf_le_totalWeightOf (p : Profile) (k : string) :
  (selfWeightOf p k <= totalWeightOf p k)%N.
Proof.
  apply sumOver_le. intros s _.
  destruct (isLeafOf k s) eqn:Hleaf.
  - rewrite (isLeafOf_occursIn _ _ Hleaf). reflexivity.
  - apply N.le_0_l.
Qed.

Lemma forEachFrame_weights (p : Profile) (f : Frame) :
  f ∈ forEachFrame p ->
  getSelfWeight f = selfWeightOf p (key (info f)) /\
  getTotalWeight f = totalWeightOf p (key (info f)).
Proof.
  unfold forEachFrame. intros Hf.
  apply list_elem_of_fmap in Hf as (i & -> & _). split; reflexivity.
Qed.

(** In a profile without non-idle weight no frame has weight. *)
Lemma totalWeightOf_zero (p : Profile) (k : string) :
  getTotalNonIdleWeight p = 0%N -> totalWeightOf p k = 0%N.
Proof.
  intros Hzero. unfold totalWeightOf.
  assert (sumOver (fun s => if occursIn k s then weight s else 0%N) (samples p)
          <= getTotalNonIdleWeight p)%N as Hle.
  { apply sumOver_le. intros s _.
    destruct (occursIn k s) eqn:Hocc.
    - rewrite (occursIn_not_idle _ _ Hocc). reflexivity.
    - apply N.le_0_l. }
  lia.
Qed.

End ProfileWeights.

(** ** The grouped call tree *)

Section CallTree.
Import LibProfile.

Lemma upsertChild_total (f : FrameInfo) (update : CallTreeNode -> CallTreeNode)
    (w : N) (nodes : list CallTreeNode) :
  (forall n, nodeTotalWeight (update n) = (nodeTotalWeight n + w)%N) ->
  sumOver nodeTotalWeight (upsertChild f update nodes)
  = (sumOver nodeTotalWeight nodes + w)%N.
Proof.
  intros Hupdate. induction nodes as [|n rest IH]; simpl.
  - unfold sumOver. simpl. rewrite Hupdate. simpl. lia.
  - destruct (bool_decide (key (frame n) = key f)).
    + rewrite !sumOver_cons, Hupdate. lia.
    + rewrite !sumOver_cons, IH. lia.
Qed.

Lemma addStack_total (st : list FrameInfo) (w : N) (nodes : list CallTreeNode) :
  sumOver nodeTotalWeight (addStack st w nodes)
  = (sumOver nodeTotalWeight nodes + match st with [] => 0 | _ :: _ => w end)%N.
Proof.
  destruct st as [|f rest]; simpl.
  - lia.
  - apply upsertChild_total. intros n. reflexivity.
Qed.

Lemma foldl_addStack_total (l : list Sample) (nodes : list CallTreeNode) :
  sumOver nodeTotalWeight
    (foldl (fun nodes s => addStack (stack s) (weight s) nodes) nodes l)
  = (sumOver nodeTotalWeight nodes
     + sumOver (fun s => if isIdle s then 0%N else weight s) l)%N.
Proof.
  revert nodes. induction l as [|s l IH]; intros nodes.
  - unfold sumOver. simpl. lia.
  - cbn [foldl]. rewrite IH, addStack_total, sumOver_cons. unfold isIdle.
    destruct (stack s); lia.
Qed.

Lemma groupedCalltreeRoots_total (p : Profile) :
  sumOver nodeTotalWeight (groupedCalltreeRoots p) = getTotalNonIdleWeight p.
Proof.
  unfold groupedCalltreeRoots, getTotalNonIdleWeight.
  rewrite foldl_addStack_total. reflexivity.
Qed.

Lemma visitNode_unfold (depth : nat) (start : N) (f : FrameInfo)
    (self total : N) (kids : list CallTreeNode) :
  visitNode depth start (mkNode f self total kids)
  = mkCall f start total depth :: visitNodes (S depth) start kids.
Proof.
  simpl. f_equal. revert start.
  induction kids as [|c cs IH]; intros start; simpl.
  - reflexivity.
  - rewrite IH. reflexivity.
Qed.

Lemma visitNode_depth (n : CallTreeNode) :
  forall depth start c, c ∈ visitNode depth start n -> depth <= callDepth c.
Proof.
  induction n as [f self total kids IH] using CallTreeNode_nested_ind.
  intros depth start c. rewrite visitNode_unfold.
  intros Hc. apply elem_of_cons in Hc as [-> | Hc]; [simpl; lia|].
  revert start Hc. induction IH as [|k kids Hk _ IHkids]; intros start Hc; simpl in Hc.
  - inversion Hc.
  - apply elem_of_app in Hc as [Hc | Hc].
    + apply Hk in Hc. lia.
    + now apply IHkids in Hc.
Qed.

Lemma filter_none {A : Type} (P : A -> Prop) `{forall a, Decision (P a)}
    (l : list A) :
  (forall a, a ∈ l -> ~ P a) -> filter P l = [].
Proof.
  induction l as [|a l IH]; intros Hno.
  - reflexivity.
  - rewrite filter_cons_False.
    + apply IH. intros b Hb. apply Hno. now apply list_elem_of_further.
    + apply Hno. apply list_elem_of_here.
Qed.

(** Of the calls of a walk from depth 0, the root-level ones are the given
    nodes themselves. *)
Lemma rootCalls_of_nodes (ns : list CallTreeNode) (start : N) :
  callWeight <$> filter (fun c => callDepth c = 0) (visitNodes 0 start ns)
  = nodeTotalWeight <$> ns.
Proof.
  revert start. induction ns as [|n ns IH]; intros start; simpl.
  - reflexivity.
  - rewrite filter_app, fmap_app, IH.
    destruct n as [f self total kids]. rewrite visitNode_unfold.
    rewrite filter_cons_True by reflexivity.
    rewrite filter_none.
    + reflexivity.
    + intros c Hc Hdepth.
      assert (1 <= callDepth c) as Hge; [|lia].
      revert start Hc. clear IH. induction kids as [|k kids IHk]; intros start Hc; simpl in Hc.
      * inversion Hc.
      * apply elem_of_app in Hc as [Hc | Hc].
        -- now apply visitNode_depth in Hc.
        -- now apply IHk in Hc.
Qed.

Lemma sumOver_fmap {A B : Type} (g : B -> N) (h : A -> B) (l : list A) :
  sumOver g (h <$> l) = sumOver (fun a => g (h a)) l.
Proof.
  induction l as [|a l IH]; [reflexivity|].
  rewrite fmap_cons, !sumOver_cons, IH. reflexivity.
Qed.

Lemma rootCalls_total (p : Profile) :
  sumOver callWeight (rootCalls p) = getTotalNonIdleWeight p.
Proof.
  rewrite <- groupedCalltreeRoots_total. unfold rootCalls, forEachCallGrouped.
  transitivity (sumOver id (callWeight <$>
    filter (fun c => callDepth c = 0) (visitNodes 0 0 (groupedCalltreeRoots p)))).
  - rewrite sumOver_fmap. reflexivity.
  - rewrite rootCalls_of_nodes, sumOver_fmap. reflexivity.
Qed.

End CallTree.

(** ** Claims about the weights *)

Section WeightClaims.
Import LibProfile.

(** C6.  In every finalized profile each frame's self weight is at most its
    total weight, and the total weights of the root-level nodes enumerated by
    [forEachCallGrouped] add up to [getTotalNonIdleWeight]. *)
Theorem self_le_total_and_roots_sum_to_total (p : Profile) :
  (forall f, f ∈ forEachFrame p -> (getSelfWeight f <= getTotalWeight f)%N) /\
  sumOver callWeight (rootCalls p) = getTotalNonIdleWeight p.
Proof.
  split.
  - intros f Hf. destruct (forEachFrame_weights p f Hf) as [-> ->].
    apply selfWeightOf_le_totalWeightOf.
  - apply rootCalls_total.
Qed.

End WeightClaims.

(** ** The percentage columns of the frame table *)

Section Percentages.
Import LibProfile ProfileTableView.

(** A row for a frame without weight in a profile without weight: its
    percentages are NaN. *)
Lemma zero_over_zero_is_nan (props : ProfileTableRowViewProps) :
  getTotalWeight (frame props) = 0%N ->
  getSelfWeight (frame props) = 0%N ->
  getTotalNonIdleWeight (profile props) = 0%N ->
  PrimFloat.is_nan (totalPerc (ProfileTableRowView props)) = true /\
  PrimFloat.is_nan (selfPerc (ProfileTableRowView props)) = true.
Proof.
  intros Htotal Hself Hzero. unfold ProfileTableRowView. cbn [totalPerc selfPerc].
  rewrite Htotal, Hself, Hzero. split; vm_compute; reflexivity.
Qed.

(** C1, as stated, fails: the division by [getTotalNonIdleWeight] is not
    guarded.  In a profile whose total non-idle weight is zero the row of a
    frame shows NaN in both columns, not 0%. *)
Lemma unguarded_division_renders_nan :
  getTotalNonIdleWeight Scenario.weightless = 0%N /\
  forEachFrame Scenario.weightless = [frame ScenarioRows.weightlessRow] /\
  PrimFloat.is_nan (totalPerc (ProfileTableRowView ScenarioRows.weightlessRow)) = true /\
  PrimFloat.is_nan (selfPerc (ProfileTableRowView ScenarioRows.weightlessRow)) = true /\
  PrimFloat.eqb (totalPerc (ProfileTableRowView ScenarioRows.weightlessRow)) 0%float = false /\
  PrimFloat.eqb (selfPerc (ProfileTableRowView ScenarioRows.weightlessRow)) 0%float = false /\
  PrimFloat.is_nan (filledWidth (totalBar (ProfileTableRowView ScenarioRows.weightlessRow))) = true /\
  PrimFloat.is_nan (filledWidth (selfBar (ProfileTableRowView ScenarioRows.weightlessRow))) = true.
Proof. repeat split; vm_compute; reflexivity. Qed.

(** C1, amended.  For a profile whose total non-idle weight is zero the row
    view divides by zero all the same and does not throw: every frame of the
    profile gets NaN as its total and as its self percentage, in the cell and
    in the bar.  A profile with zero samples has no frame, hence no row. *)
Theorem zero_weight_profile_rows_are_nan (p : Profile) :
  getTotalNonIdleWeight p = 0%N ->
  (forall props : ProfileTableRowViewProps,
     profile props = p ->
     frame props ∈ forEachFrame p ->
     PrimFloat.is_nan (totalPerc (ProfileTableRowView props)) = true /\
     PrimFloat.is_nan (selfPerc (ProfileTableRowView props)) = true /\
     totalBar (ProfileTableRowView props)
       = HBarDisplay (mkHBarProps (totalPerc (ProfileTableRowView props))) /\
     selfBar (ProfileTableRowView props)
       = HBarDisplay (mkHBarProps (selfPerc (ProfileTableRowView props)))) /\
  (samples p = [] -> forEachFrame p = []).
Proof.
  intros Hzero. split.
  - intros props Hp Hf.
    destruct (forEachFrame_weights p _ Hf) as [Hself Htotal].
    assert (getTotalWeight (frame props) = 0%N) as Ht.
    { rewrite Htotal. now apply totalWeightOf_zero. }
    assert (getSelfWeight (frame props) = 0%N) as Hs.
    { pose proof (selfWeightOf_le_totalWeightOf p (key (info (frame props)))) as Hle.
      rewrite <- Hself, <- Htotal in Hle. lia. }
    subst p.
    destruct (zero_over_zero_is_nan props Ht Hs Hzero) as [H1 H2].
    repeat split; assumption || reflexivity.
  - intros Hnone. unfold forEachFrame, frameInfos. rewrite Hnone. reflexivity.
Qed.

Lemma zero_weight_profile_rows_are_nan_witness :
  getTotalNonIdleWeight Scenario.weightless = 0%N /\
  PrimFloat.is_nan (totalPerc (ProfileTableRowView ScenarioRows.weightlessRow)) = true.
Proof.
  split; [reflexivity|].
  refine (proj1 (proj1 (zero_weight_profile_rows_are_nan Scenario.weightless _)
                   ScenarioRows.weightlessRow _ _)).
  - reflexivity.
  - reflexivity.
  - vm_compute. apply list_elem_of_here.
Defined.

End Percentages.

(** ** Inverting a profile around a frame *)

Section Inversion.
Import LibProfile.

(** Of the calls of a walk from depth 0, the root-level ones are the given
    nodes themselves, each starting where its elder sibling ended. *)
Lemma filter_root_level (ns : list CallTreeNode) (start : N) :
  filter (fun c => callDepth c = 0) (visitNodes 0 start ns) = rootLevel start ns.
Proof.
  revert start. induction ns as [|n ns IH]; intros start; cbn [visitNodes rootLevel].
  - reflexivity.
  - rewrite filter_app, IH.
    destruct n as [f self total kids]. rewrite visitNode_unfold.
    rewrite filter_cons_True by reflexivity.
    rewrite filter_none; [reflexivity|].
    intros c Hc Hdepth.
    assert (1 <= callDepth c) as Hge; [|lia].
    clear IH. revert start Hc.
    induction kids as [|k kids IHk]; intros start Hc; simpl in Hc.
    + inversion Hc.
    + apply elem_of_app in Hc as [Hc | Hc].
      * now apply visitNode_depth in Hc.
      * now apply IHk in Hc.
Qed.

(** Every path [callerStacks] returns starts at the frame asked for. *)
Lemma callerStacks_head (k : string) (st above path : list FrameInfo) :
  path ∈ callerStacks k above st ->
  exists g rest, path = g :: rest /\ key g = k.
Proof.
  revert above. induction st as [|g st IH]; intros above Hin; simpl in Hin.
  - inversion Hin.
  - apply elem_of_app in Hin as [Hin | Hin].
    + destruct (bool_decide (key g = k)) eqn:Hk.
      * apply list_elem_of_singleton in Hin. subst path.
        apply bool_decide_eq_true in Hk. eauto.
      * inversion Hin.
    + eapply IH, Hin.
Qed.

Lemma callerStacks_occurrence (k : string) (st above : list FrameInfo)
    (g : FrameInfo) :
  g ∈ st -> key g = k -> exists path, path ∈ callerStacks k above st.
Proof.
  revert above. induction st as [|h st IH]; intros above Hg Hk.
  - inversion Hg.
  - cbn [callerStacks]. apply elem_of_cons in Hg as [<- | Hg].
    + rewrite bool_decide_eq_true_2 by exact Hk.
      exists (g :: above). apply elem_of_app. left. apply list_elem_of_here.
    + destruct (IH (h :: above) Hg Hk) as (path & Hpath).
      exists path. apply elem_of_app. now right.
Qed.

Lemma callerStacks_length (k : string) (st above : list FrameInfo) :
  length (callerStacks k above st) = length (filter (fun g => key g = k) st).
Proof.
  revert above. induction st as [|g st IH]; intros above; simpl.
  - reflexivity.
  - rewrite length_app, IH. unfold filter at 2. cbn [list_filter].
    destruct (decide (key g = k)) as [Hk|Hk].
    + rewrite bool_decide_eq_true_2 by exact Hk. reflexivity.
    + rewrite bool_decide_eq_false_2 by exact Hk. reflexivity.
Qed.

Lemma sumOver_const {A : Type} (w : N) (l : list A) :
  sumOver (fun _ => w) l = (N.of_nat (length l) * w)%N.
Proof.
  induction l as [|a l IH]; [reflexivity|].
  rewrite sumOver_cons, IH. cbn [length]. lia.
Qed.

Lemma sumOver_bind {A B : Type} (g : B -> N) (h : A -> list B) (l : list A) :
  sumOver g (a ← l; h a) = sumOver (fun a => sumOver g (h a)) l.
Proof.
  induction l as [|a l IH]; [reflexivity|].
  rewrite bind_cons, sumOver_app, sumOver_cons, IH. reflexivity.
Qed.

(** The inverted profile carries, for every occurrence of the frame, the
    weight of the stack it occurs on. *)
Lemma inverted_weight (p : Profile) (f : FrameInfo) :
  sumOver weight (samples (getInvertedProfileForCallersOf p f))
  = sumOver (fun s => (N.of_nat (occurrences (key f) s) * weight s)%N) (samples p).
Proof.
  unfold getInvertedProfileForCallersOf. cbn [samples].
  rewrite sumOver_bind. apply sumOver_ext. intros s _.
  rewrite sumOver_fmap. cbn [weight].
  rewrite sumOver_const, callerStacks_length. reflexivity.
Qed.

Lemma inverted_stacks_start_at_frame (p : Profile) (f : FrameInfo) (s : Sample) :
  s ∈ samples (getInvertedProfileForCallersOf p f) ->
  exists g rest, stack s = g :: rest /\ key g = key f.
Proof.
  unfold getInvertedProfileForCallersOf. cbn [samples]. intros Hs.
  apply list_elem_of_bind in Hs as (s0 & Hs & _).
  apply list_elem_of_fmap in Hs as (path & -> & Hpath).
  cbn [stack]. eapply callerStacks_head, Hpath.
Qed.

Lemma addStack_first_root (k : string) (g : FrameInfo) (rest : list FrameInfo)
    (w : N) :
  key g = k -> singleRoot k w (addStack (g :: rest) w []).
Proof.
  intros Hk. cbn [addStack upsertChild].
  eexists. split; [reflexivity|]. split; [exact Hk|]. cbn. lia.
Qed.

Lemma addStack_same_root (k : string) (g : FrameInfo) (rest : list FrameInfo)
    (w total : N) (nodes : list CallTreeNode) :
  key g = k -> singleRoot k total nodes ->
  singleRoot k (total + w) (addStack (g :: rest) w nodes).
Proof.
  intros Hk (n & -> & Hn & Htotal). cbn [addStack upsertChild].
  rewrite bool_decide_eq_true_2 by congruence.
  eexists. split; [reflexivity|]. split; [exact Hn|]. cbn. lia.
Qed.

Lemma foldl_addStack_same_root (k : string) (l : list Sample) :
  (forall s, s ∈ l -> exists g rest, stack s = g :: rest /\ key g = k) ->
  forall total nodes,
    singleRoot k total nodes ->
    singleRoot k (total + sumOver weight l)
      (foldl (fun nodes s => addStack (stack s) (weight s) nodes) nodes l).
Proof.
  induction l as [|s l IH]; intros Hheads total nodes Hroot.
  - cbn [foldl]. unfold sumOver. cbn [foldr]. now rewrite N.add_0_r.
  - cbn [foldl]. rewrite sumOver_cons, N.add_assoc.
    apply IH.
    + intros s' Hs'. apply Hheads. now apply list_elem_of_further.
    + destruct (Hheads s (list_elem_of_here s l)) as (g & rest & Hstack & Hk).
      rewrite Hstack. now apply addStack_same_root.
Qed.

Lemma inverted_single_root (p : Profile) (f : FrameInfo) :
  (exists s, s ∈ samples p /\ occursIn (key f) s = true) ->
  singleRoot (key f)
    (sumOver (fun s => (N.of_nat (occurrences (key f) s) * weight s)%N) (samples p))
    (groupedCalltreeRoots (getInvertedProfileForCallersOf p f)).
Proof.
  intros (s & Hs & Hocc).
  rewrite <- inverted_weight.
  pose proof (inverted_stacks_start_at_frame p f) as Hheads.
  unfold groupedCalltreeRoots.
  destruct (samples (getInvertedProfileForCallersOf p f)) as [|s1 l] eqn:Hinv.
  - (* an occurrence gives a sample of the inverted profile *)
    exfalso.
    unfold occursIn, stackKeys in Hocc. apply bool_decide_eq_true in Hocc.
    apply list_elem_of_fmap in Hocc as (g & Hkey & Hg).
    destruct (callerStacks_occurrence (key f) (stack s) [] g Hg (eq_sym Hkey))
      as (path & Hpath).
    assert (mkSample path (weight s) ∈ samples (getInvertedProfileForCallersOf p f))
      as Hin.
    { unfold getInvertedProfileForCallersOf. cbn [samples].
      apply list_elem_of_bind. exists s. split; [|exact Hs].
      apply list_elem_of_fmap. exists path. split; [reflexivity | exact Hpath]. }
    rewrite Hinv in Hin. inversion Hin.
  - cbn [foldl]. rewrite sumOver_cons.
    apply foldl_addStack_same_root.
    + intros s' Hs'. apply Hheads. now apply list_elem_of_further.
    + destruct (Hheads s1 (list_elem_of_here s1 l)) as (g & rest & Hstack & Hk).
      rewrite Hstack. now apply addStack_first_root.
Qed.

(** C3.  For a frame occurring in the profile, the profile inverted around it
    has a single root, of that frame, whose total weight is the sum over all
    occurrences of the frame of the weight of the stack the occurrence is on.
    In the scenario the root is [b] with 100 and its children are [a] with 40
    and [c] with 60. *)
Theorem inverted_profile_root :
  (forall (p : Profile) (f : FrameInfo),
     (exists s, s ∈ samples p /\ occursIn (key f) s = true) ->
     exists g,
       key g = key f /\
       rootCalls (getInvertedProfileForCallersOf p f)
       = [mkCall g 0
            (sumOver (fun s => (N.of_nat (occurrences (key f) s) * weight s)%N)
               (samples p)) 0]) /\
  forEachCallGrouped
    (getInvertedProfileForCallersOf Scenario.twoCallers (Scenario.fn "b"))
  = [ mkCall (Scenario.fn "b") 0 100 0;
      mkCall (Scenario.fn "a") 0 40 1;
      mkCall (Scenario.fn "main") 0 40 2;
      mkCall (Scenario.fn "c") 40 60 1;
      mkCall (Scenario.fn "main") 40 60 2 ].
Proof.
  split.
  - intros p f Hocc.
    destruct (inverted_single_root p f Hocc) as (n & Hroots & Hkey & Htotal).
    exists (frame n). split; [exact Hkey|].
    unfold rootCalls, forEachCallGrouped.
    rewrite filter_root_level, Hroots. cbn [rootLevel]. now rewrite Htotal.
  - vm_compute. reflexivity.
Qed.

Lemma inverted_profile_root_witness :
  exists g,
    key g = "b" /\
    rootCalls (getInvertedProfileForCallersOf Scenario.twoCallers (Scenario.fn "b"))
    = [mkCall g 0 100 0].
Proof.
  destruct (proj1 inverted_profile_root Scenario.twoCallers (Scenario.fn "b"))
    as (g & Hkey & Hroot).
  - exists (mkSample [Scenario.fn "main"; Scenario.fn "a"; Scenario.fn "b"] 40).
    split; [apply list_elem_of_here | reflexivity].
  - exists g. split; [exact Hkey | exact Hroot].
Defined.

End Inversion.

(** ** Flattening recursion *)

Section Flattening.
Import LibProfile.


(** The path cut back to an open frame ends with that frame. *)
Lemma unwindTo_last (k : string) (path : list FrameInfo) :
  k ∈ key <$> path -> key <$> last (unwindTo k path) = Some k.
Proof.
  induction path as [|g path IH]; intros Hk; cbn [unwindTo].
  - inversion Hk.
  - destruct (bool_decide (key g = k)) eqn:Hg.
    + apply bool_decide_eq_true in Hg. cbn. now rewrite Hg.
    + apply bool_decide_eq_false in Hg.
      rewrite fmap_cons in Hk.
      apply elem_of_cons in Hk as [Hk | Hk]; [congruence|].
      specialize (IH Hk).
      destruct (unwindTo k path) as [|h rest] eqn:Hcut; [discriminate|].
      exact IH.
Qed.





(** The root of a stack stays the root of the flattened stack. *)
Lemma flattenStack_open_root (st path : list FrameInfo) (f : FrameInfo) :
  head path = Some f -> head (flattenStack path st) = Some f.
Proof.
  revert path. induction st as [|g st IH]; intros path Hroot; cbn [flattenStack].
  - exact Hroot.
  - destruct path as [|h path]; [discriminate|]. cbn in Hroot.
    destruct (bool_decide (key g ∈ key <$> h :: path)); apply IH.
    + cbn [unwindTo]. now destruct (bool_decide (key h = key g)).
    + exact Hroot.
Qed.

Lemma flattenStack_root (st : list FrameInfo) :
  head (flattenStack [] st) = head st.
Proof.
  destruct st as [|f st]; [reflexivity|]. cbn [flattenStack head].
  rewrite bool_decide_eq_false_2 by (cbn; apply not_elem_of_nil).
  now apply flattenStack_open_root.
Qed.

(** The leaf of a stack is the leaf of the flattened stack: the frame itself,
    or the outermost occurrence it was collapsed into. *)
Lemma flattenStack_last (st : list FrameInfo) :
  forall path : list FrameInfo,
    st <> [] -> key <$> last (flattenStack path st) = key <$> last st.
Proof.
  induction st as [|f st IH]; intros path Hst; [congruence|].
  cbn [flattenStack].
  destruct st as [|g st].
  - cbn [flattenStack last].
    destruct (bool_decide (key f ∈ key <$> path)) eqn:Hopen.
    + apply bool_decide_eq_true in Hopen. now apply unwindTo_last.
    + now rewrite last_snoc.
  - change (last (f :: g :: st)) with (last (g :: st)).
    destruct (bool_decide (key f ∈ key <$> path)); now apply IH.
Qed.

Lemma flattenStack_leaf (k : string) (s : Sample) :
  isLeafOf k (mkSample (flattenStack [] (stack s)) (weight s)) = isLeafOf k s.
Proof.
  unfold isLeafOf. cbn [stack].
  destruct (stack s) as [|f st] eqn:Hstack; [reflexivity|].
  pose proof (flattenStack_last (f :: st) [] ltac:(discriminate)) as Hlast.
  destruct (last (flattenStack [] (f :: st))) as [x|];
    destruct (last (f :: st)) as [y|]; cbn in Hlast; try discriminate.
  - injection Hlast as Hlast. now rewrite Hlast.
  - reflexivity.
Qed.

Lemma flattenStack_idle (s : Sample) :
  isIdle (mkSample (flattenStack [] (stack s)) (weight s)) = isIdle s.
Proof.
  unfold isIdle. cbn [stack].
  destruct (stack s) as [|f st] eqn:Hstack; [reflexivity|].
  pose proof (flattenStack_last (f :: st) [] ltac:(discriminate)) as Hlast.
  destruct (flattenStack [] (f :: st)) as [|x rest]; [|reflexivity].
  cbn [last fmap option_fmap option_map] in Hlast.
  destruct (last (f :: st)) eqn:Hl; [discriminate|].
  now apply last_None in Hl.
Qed.

(** Spec 4.1 of the flattened profile: every frame keeps its self weight (the
    collapsed node has the self weights of all its occurrences), and the
    total non-idle weight is kept. *)
Lemma flattening_keeps_self_weights (p : Profile) :
  (forall k, selfWeightOf (getProfileWithRecursionFlattened p) k
             = selfWeightOf p k) /\
  getTotalNonIdleWeight (getProfileWithRecursionFlattened p)
  = getTotalNonIdleWeight p.
Proof.
  split; [intros k|];
    unfold selfWeightOf, getTotalNonIdleWeight, getProfileWithRecursionFlattened;
    cbn [samples]; rewrite sumOver_fmap; apply sumOver_ext; intros s _; cbn [weight].
  - now rewrite flattenStack_leaf.
  - now rewrite flattenStack_idle.
Qed.


(** The spec's scenario: [main -> a -> a -> b] with weight 100 flattens to
    the three nodes [main -> a -> b], each of weight 100 and [a] with the self
    weight of both its occurrences (none). *)
Example flattening_scenario :
  forEachCallGrouped (getProfileWithRecursionFlattened Scenario.recursive)
  = [ mkCall (Scenario.fn "main") 0 100 0;
      mkCall (Scenario.fn "a") 0 100 1;
      mkCall (Scenario.fn "b") 0 100 2 ] /\
  selfWeightOf (getProfileWithRecursionFlattened Scenario.recursive) "a"
  = selfWeightOf Scenario.recursive "a".
Proof. split; vm_compute; reflexivity. Qed.

(** Recursion through another frame: of [main -> a -> b -> a] (10) and
    [main -> a -> b] (5) the run [a -> b -> a] is collapsed into the node of
    the outer [a], which has the self weight 10 of the inner one and keeps its
    total of 15; [b] keeps its self weight 5. *)
Example flattening_indirect_recursion :
  let flat := getProfileWithRecursionFlattened Scenario.indirect in
  samples flat
  = [ mkSample [Scenario.fn "main"; Scenario.fn "a"] 10;
      mkSample [Scenario.fn "main"; Scenario.fn "a"; Scenario.fn "b"] 5 ] /\
  selfWeightOf Scenario.indirect "a" = 10%N /\
  selfWeightOf flat "a" = 10%N /\
  totalWeightOf Scenario.indirect "a" = 15%N /\
  totalWeightOf flat "a" = 15%N /\
  selfWeightOf Scenario.indirect "b" = 5%N /\
  selfWeightOf flat "b" = 5%N.
Proof. repeat split; vm_compute; reflexivity. Qed.

End Flattening.

(** ** Color buckets *)

Section Colors.
Import LibProfile StoreGetters.

Variables (hash : string -> N) (paletteSize : N).

Lemma bucket_of_listed_frame (frames : list Frame) (k : string) :
  k ∈ (fun f => key (info f)) <$> frames ->
  foldr (fun f m => <[key (info f) := bucketOf hash paletteSize (key (info f))]> m)
    (∅ : gmap string N) frames !! k
  = Some (bucketOf hash paletteSize k).
Proof.
  induction frames as [|f frames IH]; intros Hk.
  - inversion Hk.
  - cbn [foldr]. rewrite fmap_cons in Hk.
    destruct (decide (key (info f) = k)) as [<- | Hne].
    + apply lookup_insert_eq.
    + rewrite lookup_insert_ne by exact Hne. apply IH.
      apply elem_of_cons in Hk as [Hk | Hk]; [congruence | exact Hk].
Qed.

(** Whatever the profile, a frame it holds is given the bucket of its key. *)
Lemma getFrameToColorBucket_lookup (p : Profile) (f : Frame) :
  f ∈ forEachFrame p ->
  createGetColorBucketForFrame (getFrameToColorBucket hash paletteSize p) f
  = Some (bucketOf hash paletteSize (key (info f))).
Proof.
  intros Hf. unfold createGetColorBucketForFrame, getFrameToColorBucket.
  apply bucket_of_listed_frame. apply list_elem_of_fmap. eauto.
Qed.

(** C5.  A frame of the profile and the frame of the same identity key in the
    profile with recursion flattened are assigned the same bucket, which is
    the one the key alone decides. *)
Theorem color_bucket_survives_flattening (p : Profile) (f g : Frame) :
  f ∈ forEachFrame p ->
  g ∈ forEachFrame (LibProfile.getProfileWithRecursionFlattened p) ->
  key (info f) = key (info g) ->
  createGetColorBucketForFrame (getFrameToColorBucket hash paletteSize p) f
  = createGetColorBucketForFrame
      (getFrameToColorBucket hash paletteSize
         (LibProfile.getProfileWithRecursionFlattened p)) g
  /\
  createGetColorBucketForFrame (getFrameToColorBucket hash paletteSize p) f
  = Some (bucketOf hash paletteSize (key (info f))).
Proof.
  intros Hf Hg Hkey.
  rewrite (getFrameToColorBucket_lookup p f Hf).
  rewrite (getFrameToColorBucket_lookup _ g Hg).
  rewrite Hkey. split; reflexivity.
Qed.

End Colors.

Lemma color_bucket_survives_flattening_witness :
  StoreGetters.createGetColorBucketForFrame
    (StoreGetters.getFrameToColorBucket (fun k => N.of_nat (String.length k)) 8
       Scenario.recursive)
    (LibProfile.mkFrame (Scenario.fn "a") 0 100)
  = StoreGetters.createGetColorBucketForFrame
      (StoreGetters.getFrameToColorBucket (fun k => N.of_nat (String.length k)) 8
         (LibProfile.getProfileWithRecursionFlattened Scenario.recursive))
      (LibProfile.mkFrame (Scenario.fn "a") 0 100).
Proof.
  refine (proj1 (color_bucket_survives_flattening
                   (fun k => N.of_nat (String.length k)) 8 Scenario.recursive
                   (LibProfile.mkFrame (Scenario.fn "a") 0 100)
                   (LibProfile.mkFrame (Scenario.fn "a") 0 100) _ _ _)).
  - vm_compute. apply list_elem_of_further, list_elem_of_here.
  - vm_compute. apply list_elem_of_further, list_elem_of_here.
  - reflexivity.
Defined.

(** ** Memoization by shallow equality *)

Section Memoization.
Import LibUtils.

Context {T R : Type}.

(** Shallow equality holds exactly when every field name reads the same in
    both objects. *)
Lemma objectsHaveShallowEquality_spec (a b : InputObject T) :
  objectsHaveShallowEquality a b = true <->
  forall k, fieldIdentity (identities a) k = fieldIdentity (identities b) k.
Proof.
  unfold objectsHaveShallowEquality, strictEq.
  rewrite andb_true_iff, !forallb_forall. split.
  - intros [Ha Hb] k.
    destruct (identities a !! k) as [x|] eqn:Hak.
    + assert (k ∈ dom (identities a)) as Hdom by (apply elem_of_dom; eauto).
      apply elem_of_elements, list_elem_of_In in Hdom.
      now apply Ha, bool_decide_eq_true in Hdom.
    + destruct (identities b !! k) as [y|] eqn:Hbk.
      * assert (k ∈ dom (identities b)) as Hdom by (apply elem_of_dom; eauto).
        apply elem_of_elements, list_elem_of_In in Hdom.
        now apply Hb, bool_decide_eq_true in Hdom.
      * unfold fieldIdentity. now rewrite Hak, Hbk.
  - intros Hall. split; intros k _; apply bool_decide_eq_true, Hall.
Qed.

Lemma objectsHaveShallowEquality_refl (a : InputObject T) :
  objectsHaveShallowEquality a a = true.
Proof. apply objectsHaveShallowEquality_spec. reflexivity. Qed.

Lemma objectsHaveShallowEquality_trans (a b c : InputObject T) :
  objectsHaveShallowEquality a b = true ->
  objectsHaveShallowEquality b c = true ->
  objectsHaveShallowEquality a c = true.
Proof.
  rewrite !objectsHaveShallowEquality_spec. intros Hab Hbc k.
  now rewrite Hab, Hbc.
Qed.

Lemma objectsHaveShallowEquality_sym (a b : InputObject T) :
  objectsHaveShallowEquality a b = true ->
  objectsHaveShallowEquality b a = true.
Proof.
  rewrite !objectsHaveShallowEquality_spec. intros Hab k. now rewrite Hab.
Qed.

Variable f : T -> R.

(** After a call the slot holds an input that is shallowly equal to the one
    of the call, with the result the call returned. *)
Lemma memoized_slot (args : InputObject T) (slot : Memo T R) :
  exists kept,
    last (memoizeByShallowEquality f args slot).2
      = Some (kept, (memoizeByShallowEquality f args slot).1) /\
    objectsHaveShallowEquality kept args = true.
Proof.
  unfold memoizeByShallowEquality.
  destruct (last slot) as [[previous result]|] eqn:Hlast.
  - destruct (objectsHaveShallowEquality previous args) eqn:Heq; cbn.
    + exists previous. now rewrite Hlast.
    + exists args. split; [reflexivity | apply objectsHaveShallowEquality_refl].
  - cbn. exists args. split; [reflexivity | apply objectsHaveShallowEquality_refl].
Qed.

(** A call on an input shallowly equal to the one kept returns the kept
    result and leaves the slot alone. *)
Lemma memoized_hit (args kept : InputObject T) (result : R) (slot : Memo T R) :
  last slot = Some (kept, result) ->
  objectsHaveShallowEquality kept args = true ->
  memoizeByShallowEquality f args slot = (result, slot).
Proof.
  intros Hlast Heq. unfold memoizeByShallowEquality. now rewrite Hlast, Heq.
Qed.

(** A call on any other input runs the function and keeps the new pair. *)
Lemma memoized_miss (args kept : InputObject T) (result : R) (slot : Memo T R) :
  last slot = Some (kept, result) ->
  objectsHaveShallowEquality kept args = false ->
  memoizeByShallowEquality f args slot
  = (f (fields args),
     mkMemo (Some (args, f (fields args))) (S (invocations slot))).
Proof.
  intros Hlast Heq. unfold memoizeByShallowEquality. now rewrite Hlast, Heq.
Qed.

(** C2.  Two calls in succession of the function wrapped by
    [memoizeByShallowEquality].  When the fields of the two inputs are
    pairwise reference-equal, the second call does not invoke [f] and returns
    the result of the first; when some field is not reference-equal, however
    equal the inputs are structurally, the second call invokes [f] again.
    Starting from the wrapper as created, [f] has then run once, respectively
    twice. *)
Theorem memoized_called_twice (a b : InputObject T) (slot : Memo T R) :
  let first := memoizeByShallowEquality f a slot in
  let second := memoizeByShallowEquality f b first.2 in
  (objectsHaveShallowEquality a b = true ->
     second.1 = first.1 /\
     invocations second.2 = invocations first.2 /\
     (slot = fresh -> first.1 = f (fields a) /\ invocations second.2 = 1)) /\
  (objectsHaveShallowEquality a b = false ->
     second.1 = f (fields b) /\
     invocations second.2 = S (invocations first.2) /\
     (slot = fresh -> invocations second.2 = 2)).
Proof.
  cbv zeta.
  destruct (memoized_slot a slot) as (kept & Hlast & Hkept).
  split; intros Hab.
  - assert (objectsHaveShallowEquality kept b = true) as Hhit
      by (eapply objectsHaveShallowEquality_trans; eassumption).
    rewrite (memoized_hit b kept _ _ Hlast Hhit). cbn [fst snd].
    split; [reflexivity|]. split; [reflexivity|].
    intros ->. split; reflexivity.
  - assert (objectsHaveShallowEquality kept b = false) as Hmiss.
    { destruct (objectsHaveShallowEquality kept b) eqn:Hkb; [|reflexivity].
      rewrite <- Hab. symmetry.
      eapply objectsHaveShallowEquality_trans; [|exact Hkb].
      now apply objectsHaveShallowEquality_sym. }
    rewrite (memoized_miss b kept _ _ Hlast Hmiss). cbn [fst snd invocations].
    split; [reflexivity|]. split; [reflexivity|].
    intros ->. reflexivity.
Qed.

(** The wrapper does not change what is computed: when [f] cannot tell
    shallowly equal inputs apart, and the slot holds a result of [f], a call
    returns what [f] returns and the slot holds a result of [f] again. *)
Lemma memoized_returns_f (args : InputObject T) (slot : Memo T R) :
  (forall x y, objectsHaveShallowEquality x y = true -> f (fields x) = f (fields y)) ->
  coherent f slot ->
  (memoizeByShallowEquality f args slot).1 = f (fields args) /\
  coherent f (memoizeByShallowEquality f args slot).2.
Proof.
  intros Hpure Hslot. unfold memoizeByShallowEquality.
  destruct (last slot) as [[previous result]|] eqn:Hlast.
  - destruct (objectsHaveShallowEquality previous args) eqn:Heq; cbn.
    + split; [|exact Hslot].
      rewrite (Hslot previous result Hlast). now apply Hpure.
    + split; [reflexivity|]. intros kept r [= <- <-]. reflexivity.
  - cbn. split; [reflexivity|]. intros kept r [= <- <-]. reflexivity.
Qed.

End Memoization.

(** ** Sorting the frame table *)

Section SortByModel.
Import LibUtils.

Context {T : Type}.

Lemma insertSorted_Permutation (cmp : T -> T -> Z) (x : T) (l : list T) :
  insertSorted cmp x l ≡ₚ x :: l.
Proof.
  induction l as [|y l IH]; cbn [insertSorted].
  - reflexivity.
  - destruct (0 <? cmp x y)%Z; [|reflexivity].
    rewrite IH. apply Permutation_swap.
Qed.

Lemma sortBy_Permutation {K : Type} `{JSLess K} (ts : list T) (key : T -> K) :
  sortBy ts key ≡ₚ ts.
Proof.
  unfold sortBy. induction ts as [|x ts IH]; cbn [foldr].
  - reflexivity.
  - rewrite insertSorted_Permutation, IH. reflexivity.
Qed.

Lemma comparator_number_pos (key : T -> N) (x y : T) :
  (0 <? comparator key x y)%Z = true <-> (key y < key x)%N.
Proof.
  unfold comparator, less, number_less.
  destruct (N.ltb_spec (key x) (key y)); [rewrite Z.ltb_lt; lia|].
  destruct (N.ltb_spec (key y) (key x)); rewrite Z.ltb_lt; lia.
Qed.

Lemma insertSorted_number_sorted (key : T -> N) (x : T) (l : list T) :
  StronglySorted (fun a b => (key a <= key b)%N) l ->
  StronglySorted (fun a b => (key a <= key b)%N)
    (insertSorted (comparator key) x l).
Proof.
  induction 1 as [|y l Hsorted IH Hy]; cbn [insertSorted].
  - repeat constructor.
  - destruct (0 <? comparator key x y)%Z eqn:Hcmp.
    + apply comparator_number_pos in Hcmp.
      constructor; [exact IH|].
      rewrite (insertSorted_Permutation (comparator key) x l).
      constructor; [lia | exact Hy].
    + assert (key x <= key y)%N as Hle.
      { destruct (N.le_gt_cases (key x) (key y)) as [Hle|Hgt]; [exact Hle|].
        apply comparator_number_pos in Hgt. congruence. }
      constructor; [now constructor|].
      constructor; [exact Hle|].
      eapply Forall_impl; [exact Hy|]. cbn. intros z Hz. lia.
Qed.

(** The modelled [sortBy] orders by a numeric key, ascending. *)
Lemma sortBy_number_sorted (ts : list T) (key : T -> N) :
  StronglySorted (fun a b => (key a <= key b)%N) (sortBy ts key).
Proof.
  unfold sortBy. induction ts as [|x ts IH]; cbn [foldr].
  - constructor.
  - now apply insertSorted_number_sorted.
Qed.

Lemma StronglySorted_reverse (R : relation T) (l : list T) :
  StronglySorted R l -> StronglySorted (flip R) (reverse l).
Proof.
  induction 1 as [|x l Hsorted IH Hx].
  - constructor.
  - rewrite reverse_cons. apply StronglySorted_app_2.
    + intros a b Ha Hb. apply list_elem_of_singleton in Hb. subst b.
      rewrite elem_of_reverse in Ha. rewrite Forall_forall in Hx.
      unfold flip. apply Hx. exact Ha.
    + exact IH.
    + repeat constructor.
Qed.

End SortByModel.

Section FrameTable.
Import LibProfile LibUtils ProfileTableView.

Variable sortBy : forall K : Type, JSLess K ->
  list Frame -> (Frame -> K) -> list Frame.

(** C9.  For every profile and every sort field, the list the table shows
    with direction DESCENDING is the reversal of the list it shows with
    direction ASCENDING, frames with equal keys included: whatever [sortBy]
    does, descending is the same sort followed by a reversal. *)
Theorem descending_is_ascending_reversed (profile : Profile) (field : SortField) :
  frameList sortBy profile (mkSortMethod field DESCENDING)
  = reverse (frameList sortBy profile (mkSortMethod field ASCENDING)).
Proof.
  unfold frameList. cbn [ProfileTableView.field direction].
  destruct field; reflexivity.
Qed.

(** Clicking the header of the active column flips the direction and keeps
    the field. *)
Lemma onSortClick_active (m : SortMethod) :
  onSortClick m (field m)
  = mkSortMethod (field m)
      (match direction m with
       | ASCENDING => DESCENDING
       | DESCENDING => ASCENDING
       end).
Proof.
  unfold onSortClick. rewrite bool_decide_eq_true_2 by reflexivity.
  destruct (direction m); reflexivity.
Qed.

Lemma toggling_reverses (profile : Profile) (m : SortMethod) :
  frameList sortBy profile (onSortClick m (field m))
  = reverse (frameList sortBy profile m).
Proof.
  rewrite onSortClick_active. unfold frameList.
  destruct m as [fld [|]]; cbn [field direction].
  - reflexivity.
  - now rewrite reverse_involutive.
Qed.

(** What the table relies on [sortBy] for: it returns the frames it was
    given, ordered by the numeric key, ascending. *)
Hypothesis sortBy_permutes : forall (ts : list Frame) (key : Frame -> N),
  sortBy N number_less ts key ≡ₚ ts.
Hypothesis sortBy_ascending : forall (ts : list Frame) (key : Frame -> N),
  StronglySorted (fun a b => (key a <= key b)%N) (sortBy N number_less ts key).

(** C7.  Sorted by self weight with direction descending, the table lists
    the frames of the profile by decreasing self weight (self weights 5, 20, 1
    come out as 20, 5, 1), and a click on the header of the active column
    gives exactly the reversed list. *)
Theorem self_descending_and_toggle (profile : Profile) :
  let shown := frameList sortBy profile (mkSortMethod SELF DESCENDING) in
  StronglySorted (fun a b => (getSelfWeight b <= getSelfWeight a)%N) shown /\
  shown ≡ₚ forEachFrame profile /\
  (getSelfWeight <$> forEachFrame profile = [5; 20; 1]%N ->
   getSelfWeight <$> shown = [20; 5; 1]%N) /\
  (forall m : SortMethod,
     frameList sortBy profile (onSortClick m (field m))
     = reverse (frameList sortBy profile m)).
Proof using sortBy_permutes sortBy_ascending.
  cbv zeta. unfold frameList at 1 2 3. cbn [field direction].
  assert (StronglySorted (fun a b => (getSelfWeight b <= getSelfWeight a)%N)
            (reverse (sortBy N number_less (forEachFrame profile) getSelfWeight)))
    as Hsorted.
  { apply (StronglySorted_reverse (fun a b => (getSelfWeight a <= getSelfWeight b)%N)).
    apply sortBy_ascending. }
  assert (reverse (sortBy N number_less (forEachFrame profile) getSelfWeight)
          ≡ₚ forEachFrame profile) as Hperm.
  { rewrite reverse_Permutation. apply sortBy_permutes. }
  split; [exact Hsorted|]. split; [exact Hperm|]. split.
  - intros Hweights.
    apply (StronglySorted_unique_strong (fun x y : N => (y <= x)%N)).
    + intros x y _ _ Hxy Hyx. lia.
    + eapply StronglySorted_fmap; [|exact Hsorted]. intros a b Hab. exact Hab.
    + repeat constructor; lia.
    + rewrite Hperm, Hweights. apply Permutation_swap.
  - intros m. apply toggling_reverses.
Qed.

End FrameTable.

(** The modelled [sortBy], as the table takes it. *)
Lemma self_descending_and_toggle_witness :
  LibProfile.getSelfWeight <$>
    ProfileTableView.frameList (fun K less ts key => @LibUtils.sortBy K less _ ts key)
      Scenario.threeLeaves
      (ProfileTableView.mkSortMethod ProfileTableView.SELF ProfileTableView.DESCENDING)
  = [20; 5; 1]%N.
Proof.
  refine (proj1 (proj2 (proj2
    (self_descending_and_toggle
       (fun K less ts key => @LibUtils.sortBy K less _ ts key) _ _
       Scenario.threeLeaves))) _).
  - intros ts key. apply sortBy_Permutation.
  - intros ts key. apply sortBy_number_sorted.
  - reflexivity.
Defined.

(** ** The two views *)

Section Views.
Import LibProfile Store.

Variables (GLCanvas CanvasContext FlamechartRenderer : Type).
Variables (ViewStateValue CallbackArg AppStore : Type).
Variable profileFormatValue : Profile -> N -> string.
Variables (hash : string -> N) (paletteSize : N).
Variable cssColorOfBucket : option N -> string.
Variable getCanvasContext : GLCanvas -> CanvasContext.
Variable getInvertedCallerFlamegraphRenderer :
  CanvasContext -> InvertedCallerFlamegraphView.Flamechart -> FlamechartRenderer.

Local Abbreviation PropValue :=
  (InvertedCallerFlamegraphView.PropValue CanvasContext FlamechartRenderer
     ViewStateValue CallbackArg AppStore).

Variable useFlamechartSetters : FlamechartID -> nat -> gmap string PropValue.

Local Abbreviation invertedView :=
  (InvertedCallerFlamegraphView.InvertedCallerFlamegraphView
     (SortMethod := ProfileTableView.SortMethod)
     profileFormatValue hash paletteSize cssColorOfBucket getCanvasContext
     getInvertedCallerFlamegraphRenderer useFlamechartSetters).

Local Abbreviation tableContainer :=
  (ProfileTableView.ProfileTableViewContainer
     (ViewState := gmap string PropValue) (GLCanvas := GLCanvas)
     hash paletteSize cssColorOfBucket).

(** C8.  The inverted-callers view throws when the profile, the canvas or the
    caller/callee state with the selected frame is missing, and of its own
    accord only then; the table throws when the profile is missing.  A view
    that renders was given its context and uses it: the flamechart of the
    inverted-callers view is derived from the profile of the state and the
    selected frame of the state, and the table shows the profile of the state
    and the selected frame of the state, or none, never another one. *)
Theorem missing_context_throws
    (ownProps : InvertedCallerFlamegraphView.FlamechartViewContainerProps
                  CanvasContext FlamechartRenderer ViewStateValue CallbackArg AppStore)
    (tableOwnProps : ProfileTableView.ProfileTableViewContainerProps
                       (gmap string PropValue))
    (state : AppState GLCanvas ProfileTableView.SortMethod) :
  let active := InvertedCallerFlamegraphView.activeProfileState ownProps in
  let tableActive := ProfileTableView.activeProfileState tableOwnProps in
  (profile active = None -> invertedView ownProps state = JS.Throw "profile missing") /\
  (is_Some (profile active) -> glCanvas state = None ->
     invertedView ownProps state = JS.Throw "glCanvas missing") /\
  (is_Some (profile active) -> is_Some (glCanvas state) ->
     callerCallee (sandwichViewState active) = None ->
     invertedView ownProps state = JS.Throw "callerCallee missing") /\
  (JS.threw (invertedView ownProps state) = false <->
     is_Some (profile active) /\ is_Some (glCanvas state) /\
     is_Some (callerCallee (sandwichViewState active))) /\
  (forall props p cc,
     invertedView ownProps state = JS.Ok props ->
     profile active = Some p ->
     callerCallee (sandwichViewState active) = Some cc ->
     useFlamechartSetters SANDWICH_INVERTED_CALLERS (index active) !! "flamechart" = None ->
     invertedCallerFlamegraph cc !! "flamechart" = None ->
     let shown :=
       if flattenRecursion state
       then StoreGetters.getProfileWithRecursionFlattened p else p in
     props !! "flamechart"
     = Some (InvertedCallerFlamegraphView.PFlamechart
               (InvertedCallerFlamegraphView.invertedCallerFlamegraph
                  profileFormatValue
                  (InvertedCallerFlamegraphView.mkFlamegraphArgs
                     (InvertedCallerFlamegraphView.invertedCallerProfile
                        (InvertedCallerFlamegraphView.mkProfileArgs shown
                           (selectedFrame cc) (flattenRecursion state)))
                     (StoreGetters.createGetColorBucketForFrame
                        (StoreGetters.getFrameToColorBucket hash paletteSize shown)))))) /\
  (profile tableActive = None ->
     tableContainer tableOwnProps state = JS.Throw "profile missing") /\
  (forall props, tableContainer tableOwnProps state = JS.Ok props ->
     profile tableActive = Some (ProfileTableView.tableProfile props) /\
     ProfileTableView.tableSelectedFrame props
       = selectedFrame <$> callerCallee (sandwichViewState tableActive)).
Proof.
  cbv zeta.
  unfold InvertedCallerFlamegraphView.InvertedCallerFlamegraphView,
    ProfileTableView.ProfileTableViewContainer, required.
  destruct (profile (InvertedCallerFlamegraphView.activeProfileState ownProps))
    as [p|];
    destruct (glCanvas state) as [c|];
    destruct (callerCallee (sandwichViewState
                (InvertedCallerFlamegraphView.activeProfileState ownProps)))
      as [cc|];
    cbn [JS.bind JS.threw].
  all: split; [intros; first [discriminate | reflexivity]|].
  all: split; [intros Hp Hc;
               first [discriminate | reflexivity | now destruct Hp as [? [=]]]|].
  all: split; [intros Hp Hc Hcc;
               first [ discriminate | reflexivity
                     | now destruct Hp as [? [=]] | now destruct Hc as [? [=]] ]|].
  all: split;
    [split;
     [intros Hok; first [discriminate | repeat split; eexists; reflexivity]
     |intros (Hp & Hc & Hcc);
      first [ reflexivity | now destruct Hp as [? [=]]
            | now destruct Hc as [? [=]] | now destruct Hcc as [? [=]] ]]|].
  all: split;
    [intros props p' cc' Hok Hp Hcc Hsetters Hstate;
     first [ discriminate
           | injection Hok as <-; injection Hp as <-; injection Hcc as <-;
             cbv zeta; unfold InvertedCallerFlamegraphView.jsxProps; cbn [foldl];
             rewrite (lookup_union_r _ _ _ Hstate);
             rewrite lookup_union_r by reflexivity;
             rewrite (lookup_union_r _ _ _ Hsetters);
             rewrite lookup_union_r by reflexivity;
             rewrite lookup_union_r by reflexivity;
             rewrite lookup_union_r by reflexivity;
             apply lookup_union_Some_l; apply lookup_singleton_eq ]|].
  all: destruct (profile (ProfileTableView.activeProfileState tableOwnProps))
         as [tp|]; cbn [JS.bind].
  all: split; [intros; first [discriminate | reflexivity]|].
  all: intros props Hok; try discriminate.
  all: injection Hok as <-; cbn [ProfileTableView.tableProfile
                                   ProfileTableView.tableSelectedFrame].
  all: split; [reflexivity|].
  all: destruct (callerCallee (sandwichViewState
                   (ProfileTableView.activeProfileState tableOwnProps)));
    reflexivity.
Qed.

(** The props the view renders with, when it renders. *)
Lemma invertedView_props
    (ownProps : InvertedCallerFlamegraphView.FlamechartViewContainerProps
                  CanvasContext FlamechartRenderer ViewStateValue CallbackArg AppStore)
    (state : AppState GLCanvas ProfileTableView.SortMethod)
    (props : gmap string PropValue) :
  invertedView ownProps state = JS.Ok props ->
  exists (cc : CallerCalleeState (gmap string PropValue))
         (earlier : gmap string PropValue),
    callerCallee (sandwichViewState
      (InvertedCallerFlamegraphView.activeProfileState ownProps)) = Some cc /\
    props
    = invertedCallerFlamegraph cc ∪
        ({[ "setSelectedNode" := InvertedCallerFlamegraphView.PCallback LibUtils.noop ]} ∪
           (useFlamechartSetters SANDWICH_INVERTED_CALLERS
              (index (InvertedCallerFlamegraphView.activeProfileState ownProps)) ∪
            earlier)).
Proof.
  unfold InvertedCallerFlamegraphView.InvertedCallerFlamegraphView, required.
  destruct (profile (InvertedCallerFlamegraphView.activeProfileState ownProps))
    as [p|]; [|discriminate].
  destruct (glCanvas state) as [c|]; [|discriminate].
  destruct (callerCallee (sandwichViewState
              (InvertedCallerFlamegraphView.activeProfileState ownProps)))
    as [cc|]; [|discriminate].
  cbn [JS.bind]. intros [= <-].
  exists cc. eexists. split; [reflexivity|].
  unfold InvertedCallerFlamegraphView.jsxProps. cbn [foldl]. reflexivity.
Qed.

(** C10.  In the props the inverted-callers view renders with,
    [setSelectedNode] is the no-op, whatever [useFlamechartSetters] returned
    for it, so selecting a node leaves the store as it is; every other setter
    of [useFlamechartSetters] is passed on unchanged.  The view state spread
    last is taken to hold state only: no [setSelectedNode], and none of the
    setters looked at. *)
Theorem selecting_a_node_is_a_noop
    (ownProps : InvertedCallerFlamegraphView.FlamechartViewContainerProps
                  CanvasContext FlamechartRenderer ViewStateValue CallbackArg AppStore)
    (state : AppState GLCanvas ProfileTableView.SortMethod)
    (props : gmap string PropValue)
    (cc : CallerCalleeState (gmap string PropValue)) :
  invertedView ownProps state = JS.Ok props ->
  callerCallee (sandwichViewState
    (InvertedCallerFlamegraphView.activeProfileState ownProps)) = Some cc ->
  invertedCallerFlamegraph cc !! "setSelectedNode" = None ->
  props !! "setSelectedNode"
    = Some (InvertedCallerFlamegraphView.PCallback LibUtils.noop) /\
  (forall (node : CallbackArg) (store : AppStore),
     InvertedCallerFlamegraphView.selectNode props node store = store) /\
  (forall (k : string) (setter : PropValue),
     k ≠ "setSelectedNode" ->
     invertedCallerFlamegraph cc !! k = None ->
     useFlamechartSetters SANDWICH_INVERTED_CALLERS
       (index (InvertedCallerFlamegraphView.activeProfileState ownProps)) !! k
       = Some setter ->
     props !! k = Some setter).
Proof.
  intros Hok Hcc Hstate.
  destruct (invertedView_props ownProps state props Hok)
    as (cc' & earlier & Hcc' & ->).
  rewrite Hcc in Hcc'. injection Hcc' as <-.
  assert ((invertedCallerFlamegraph cc ∪
            ({[ "setSelectedNode" := InvertedCallerFlamegraphView.PCallback LibUtils.noop ]} ∪
               (useFlamechartSetters SANDWICH_INVERTED_CALLERS
                  (index (InvertedCallerFlamegraphView.activeProfileState ownProps)) ∪
                earlier))) !! "setSelectedNode"
          = Some (InvertedCallerFlamegraphView.PCallback
                    (LibUtils.noop (Arg := CallbackArg) (Store := AppStore))))
    as Hnoop.
  { rewrite lookup_union_r by exact Hstate.
    apply lookup_union_Some_l. apply lookup_singleton_eq. }
  split; [exact Hnoop|]. split.
  - intros node store. unfold InvertedCallerFlamegraphView.selectNode.
    rewrite Hnoop. reflexivity.
  - intros k setter Hk Hnone Hsetter.
    rewrite lookup_union_r by exact Hnone.
    rewrite lookup_union_r by (now apply lookup_singleton_ne).
    now apply lookup_union_Some_l.
Qed.

End Views.

(** ** The claims at the scenario *)

Lemma memoized_called_twice_witness :
  (let first := InvertedCallerFlamegraphView.getInvertedCallerProfile
                  ScenarioViews.firstInput LibUtils.fresh in
   let second := InvertedCallerFlamegraphView.getInvertedCallerProfile
                   ScenarioViews.sameFieldsInput first.2 in
   second.1 = first.1 /\ LibUtils.invocations second.2 = 1) /\
  (let first := InvertedCallerFlamegraphView.getInvertedCallerProfile
                  ScenarioViews.firstInput LibUtils.fresh in
   let second := InvertedCallerFlamegraphView.getInvertedCallerProfile
                   ScenarioViews.rebuiltProfileInput first.2 in
   LibUtils.fields ScenarioViews.rebuiltProfileInput
     = LibUtils.fields ScenarioViews.firstInput /\
   LibUtils.invocations second.2 = 2).
Proof.
  split; cbv zeta.
  - destruct (proj1 (memoized_called_twice
                       InvertedCallerFlamegraphView.invertedCallerProfile
                       ScenarioViews.firstInput ScenarioViews.sameFieldsInput
                       LibUtils.fresh)) as (Hsame & _ & Hfresh).
    + vm_compute. reflexivity.
    + split; [exact Hsame|]. exact (proj2 (Hfresh eq_refl)).
  - destruct (proj2 (memoized_called_twice
                       InvertedCallerFlamegraphView.invertedCallerProfile
                       ScenarioViews.firstInput ScenarioViews.rebuiltProfileInput
                       LibUtils.fresh)) as (_ & _ & Hfresh).
    + vm_compute. reflexivity.
    + split; [reflexivity|]. exact (Hfresh eq_refl).
Defined.

Lemma missing_context_throws_witness :
  ScenarioViews.render ScenarioViews.ownPropsWithoutProfile
  = JS.Throw "profile missing".
Proof.
  refine (proj1 (missing_context_throws unit unit unit N string (option string)
                   (fun _ _ => "") (fun k => N.of_nat (String.length k)) 8
                   (fun _ => "#000") (fun canvas => canvas) (fun _ _ => tt)
                   ScenarioViews.setters ScenarioViews.ownPropsWithoutProfile
                   ScenarioViews.tableOwnProps ScenarioViews.state) _).
  reflexivity.
Defined.

Lemma selecting_a_node_is_a_noop_witness :
  exists props,
    ScenarioViews.render ScenarioViews.ownProps = JS.Ok props /\
    InvertedCallerFlamegraphView.selectNode props "a" None = None /\
    props !! "setNodeHover" = Some ScenarioViews.hoverSetter.
Proof.
  eexists. split; [reflexivity|].
  destruct (selecting_a_node_is_a_noop unit unit unit N string (option string)
              (fun _ _ => "") (fun k => N.of_nat (String.length k)) 8
              (fun _ => "#000") (fun canvas => canvas) (fun _ _ => tt)
              ScenarioViews.setters ScenarioViews.ownProps ScenarioViews.state
              _ (Store.mkCallerCallee ScenarioViews.selectedB ScenarioViews.viewState)
              eq_refl eq_refl eq_refl) as (_ & Hselect & Hothers).
  split.
  - apply Hselect.
  - apply Hothers; [discriminate | reflexivity | reflexivity].
Defined.

(* ===================================================================== *)
(** * Part III: further properties of the two views *)
(* ===================================================================== *)

(** ** Clicks on the header of the table *)

Section SortClicks.
Import ProfileTableView.

(** X1.  Clicks on one column settle into a cycle of two: a second click on
    the active column brings back the sort method there was, and from any
    sort method a third click on a column gives what the first click gave. *)
Theorem header_clicks_cycle (m : SortMethod) (clicked : SortField) :
  onSortClick (onSortClick m (field m)) (field m) = m /\
  onSortClick (onSortClick (onSortClick m clicked) clicked) clicked
  = onSortClick m clicked.
Proof. destruct m as [[] []], clicked; split; reflexivity. Qed.

(** X2.  After a click on a column the header marks that column and no other:
    its icon is given the direction just set, of which exactly one triangle is
    drawn as active, and the icons of the other two columns are given none and
    draw none. *)
Theorem header_marks_clicked_column (m : SortMethod) (clicked : SortField) :
  let after := onSortClick m clicked in
  let header := tableHeader after in
  iconOf header clicked = Some (direction after) /\
  (forall other, other <> clicked -> iconOf header other = None) /\
  (let '(up, down) := SortIcon (iconOf header clicked) in xorb up down = true) /\
  SortIcon None = (false, false).
Proof.
  cbv zeta. destruct m as [[] []], clicked; repeat split;
    try reflexivity; intros [] Hother; try reflexivity; now destruct Hother.
Qed.

End SortClicks.

(** ** The sorted list of frames *)

Section StringOrder.

Lemma string_ltb_lt (a b : string) :
  String.ltb a b = true <-> OrderedTypeEx.String_as_OT.lt a b.
Proof.
  rewrite <- OrderedTypeEx.String_as_OT.cmp_lt.
  unfold String.ltb, OrderedTypeEx.String_as_OT.cmp.
  destruct (String.compare a b); split; congruence.
Qed.

Lemma string_ltb_asym (a b : string) :
  String.ltb a b = true -> String.ltb b a = false.
Proof.
  intros Hab. destruct (String.ltb b a) eqn:Hba; [|reflexivity].
  apply string_ltb_lt in Hab, Hba.
  exfalso. apply (OrderedTypeEx.String_as_OT.lt_not_eq a a); [|reflexivity].
  eapply OrderedTypeEx.String_as_OT.lt_trans; eassumption.
Qed.

Lemma string_ltb_total (a b : string) :
  String.ltb a b = false -> String.ltb b a = false -> a = b.
Proof.
  unfold String.ltb. rewrite (String.compare_antisym a b).
  destruct (String.compare b a) eqn:Hcmp; cbn; try discriminate.
  intros _ _. symmetry. now apply String.compare_eq_iff.
Qed.

Lemma string_not_ltb_trans (a b c : string) :
  String.ltb b a = false -> String.ltb c b = false -> String.ltb c a = false.
Proof.
  intros Hba Hcb. destruct (String.ltb c a) eqn:Hca; [|reflexivity].
  destruct (String.ltb b c) eqn:Hbc.
  - apply string_ltb_lt in Hbc, Hca.
    assert (String.ltb b a = true) as Hlt.
    { apply string_ltb_lt.
      eapply OrderedTypeEx.String_as_OT.lt_trans; eassumption. }
    congruence.
  - rewrite (string_ltb_total b c Hbc Hcb) in Hba. congruence.
Qed.

End StringOrder.

Section SortByOrder.
Import LibUtils.

Context {T K : Type} `{JSLess K}.

(** A key order the insertion respects: [less] is asymmetric and its
    complement is transitive. *)
Hypothesis less_asym : forall a b : K, less a b = true -> less b a = false.
Hypothesis not_less_trans : forall a b c : K,
  less b a = false -> less c b = false -> less c a = false.

Lemma insertSorted_sorted (key : T -> K) (x : T) (l : list T) :
  StronglySorted (fun a b => less (key b) (key a) = false) l ->
  StronglySorted (fun a b => less (key b) (key a) = false)
    (insertSorted (comparator key) x l).
Proof using less_asym not_less_trans.
  induction 1 as [|y l Hsorted IH Hy]; cbn [insertSorted].
  - repeat constructor.
  - unfold comparator at 1.
    destruct (less (key x) (key y)) eqn:Hxy; cbn.
    + constructor; [now constructor|].
      constructor; [now apply less_asym|].
      eapply Forall_impl; [exact Hy|]. cbn. intros z Hz.
      eapply not_less_trans; [|exact Hz]. now apply less_asym.
    + destruct (less (key y) (key x)) eqn:Hyx; cbn.
      * constructor; [exact IH|].
        rewrite (insertSorted_Permutation (comparator key) x l).
        constructor; [exact Hxy | exact Hy].
      * constructor; [now constructor|].
        constructor; [exact Hyx|].
        eapply Forall_impl; [exact Hy|]. cbn. intros z Hz.
        eapply not_less_trans; [exact Hyx | exact Hz].
Qed.

Lemma sortBy_sorted (ts : list T) (key : T -> K) :
  StronglySorted (fun a b => less (key b) (key a) = false) (sortBy ts key).
Proof using less_asym not_less_trans.
  unfold sortBy. induction ts as [|x ts IH]; cbn [foldr].
  - constructor.
  - now apply insertSorted_sorted.
Qed.

End SortByOrder.

Section FrameListFacts.
Import LibProfile LibUtils ProfileTableView.

Variable sortBy : forall K : Type, JSLess K ->
  list Frame -> (Frame -> K) -> list Frame.

(** What the table relies on [sortBy] for: it returns the frames it was given,
    and no frame stands before one of a smaller key, for a numeric key and for
    a string key. *)
Hypothesis sortBy_permutes : forall (K : Type) (less : JSLess K)
    (ts : list Frame) (key : Frame -> K),
  sortBy K less ts key ≡ₚ ts.
Hypothesis sortBy_by_number : forall (ts : list Frame) (key : Frame -> N),
  StronglySorted (fun a b => (key a <= key b)%N) (sortBy N number_less ts key).
Hypothesis sortBy_by_string : forall (ts : list Frame) (key : Frame -> string),
  StronglySorted (fun a b => String.ltb (key b) (key a) = false)
    (sortBy string string_less ts key).

(** X3.  Whatever the sort method, the table lists every frame of the profile
    exactly once: the list is a rearrangement of the frames [forEachFrame]
    visits, and the scrollable list is given one item per frame. *)
Theorem table_lists_every_frame_once (profile : Profile) (m : SortMethod)
    (frameHeight : N) :
  frameList sortBy profile m ≡ₚ forEachFrame profile /\
  length (listItems frameHeight (frameList sortBy profile m))
  = length (forEachFrame profile).
Proof using sortBy_permutes.
  assert (frameList sortBy profile m ≡ₚ forEachFrame profile) as Hperm.
  { unfold frameList.
    destruct (direction m); rewrite ?reverse_Permutation;
      destruct (field m); apply sortBy_permutes. }
  split; [exact Hperm|].
  unfold listItems. rewrite length_fmap. now rewrite Hperm.
Qed.

(** X4.  For every sort method the list is in the order of the method: by
    self weight or by total weight, and, where the names of the frames are
    ASCII strings, by lower-cased name; ascending or descending. *)
Theorem table_is_in_sort_order (profile : Profile) (m : SortMethod) :
  (field m = SYMBOL_NAME ->
   forall f, f ∈ forEachFrame profile -> isAscii (name (info f)) = true) ->
  StronglySorted (inSortOrder m) (frameList sortBy profile m).
Proof using sortBy_by_number sortBy_by_string.
  intros _.
  unfold frameList. destruct m as [[] []]; cbn [field direction].
  - apply (sortBy_by_string _ (fun f => toLowerCase (name (info f)))).
  - apply (StronglySorted_reverse
             (fun a b => String.ltb (toLowerCase (name (info b)))
                                      (toLowerCase (name (info a))) = false)).
    apply (sortBy_by_string _ (fun f => toLowerCase (name (info f)))).
  - apply sortBy_by_number.
  - apply (StronglySorted_reverse
             (fun a b => (getSelfWeight a <= getSelfWeight b)%N)).
    apply sortBy_by_number.
  - apply sortBy_by_number.
  - apply (StronglySorted_reverse
             (fun a b => (getTotalWeight a <= getTotalWeight b)%N)).
    apply sortBy_by_number.
Qed.

End FrameListFacts.

Lemma table_lists_every_frame_once_witness :
  length (ProfileTableView.listItems 20
            (ProfileTableView.frameList
               (fun K less ts key => @LibUtils.sortBy K less _ ts key)
               Scenario.twoCallers
               (ProfileTableView.mkSortMethod ProfileTableView.SYMBOL_NAME
                  ProfileTableView.ASCENDING)))
  = 4.
Proof.
  refine (proj2 (table_lists_every_frame_once
                   (fun K less ts key => @LibUtils.sortBy K less _ ts key) _
                   Scenario.twoCallers _ 20%N)).
  intros K less ts key. apply sortBy_Permutation.
Defined.

Lemma table_is_in_sort_order_witness :
  StronglySorted
    (ProfileTableView.inSortOrder
       (ProfileTableView.mkSortMethod ProfileTableView.SYMBOL_NAME
          ProfileTableView.DESCENDING))
    (ProfileTableView.frameList
       (fun K less ts key => @LibUtils.sortBy K less _ ts key)
       Scenario.twoCallers
       (ProfileTableView.mkSortMethod ProfileTableView.SYMBOL_NAME
          ProfileTableView.DESCENDING)).
Proof.
  refine (table_is_in_sort_order
            (fun K less ts key => @LibUtils.sortBy K less _ ts key) _ _
            Scenario.twoCallers _ _).
  - intros ts key. apply sortBy_number_sorted.
  - intros ts key.
    apply (sortBy_sorted (H := LibUtils.string_less)).
    + apply string_ltb_asym.
    + apply string_not_ltb_trans.
  - intros _ f Hf. vm_compute in Hf.
    repeat (apply elem_of_cons in Hf as [-> | Hf]; [reflexivity|]).
    inversion Hf.
Defined.

(** ** The rows the table renders *)

Section RenderedRows.
Import LibProfile ProfileTableView.

Variable sortBy : forall K : Type, LibUtils.JSLess K ->
  list Frame -> (Frame -> K) -> list Frame.

(** The row [renderItems] makes of frame [f] at position [i]. *)
Local Abbreviation rowAt props f i :=
  (ProfileTableRowView
     (mkRowProps f i (tableProfile props) (tableSelectedFrame props)
        (fun f => tableSetSelectedFrame props (Some f))
        (tableGetCSSColorForFrame props))).

Local Abbreviation shown props :=
  (frameList sortBy (tableProfile props) (sortMethod props)).

Lemma renderItems_unfold (props : ProfileTableViewProps) (firstIndex lastIndex : nat) :
  renderItems sortBy props firstIndex lastIndex
  = foldr
      (fun i rows =>
         match shown props !! i with
         | Some f => rest <-! rows; JS.Ok (rowAt props f i :: rest)
         | None => JS.Throw "TypeError: frame is undefined"
         end)
      (JS.Ok [])
      (seq firstIndex (S lastIndex - firstIndex)).
Proof. reflexivity. Qed.

(** The loop over [count] indices from [from]: it ends with one row per index
    exactly when every index is within the list, and throws otherwise. *)
Lemma render_loop (props : ProfileTableViewProps) (count : nat) :
  forall from,
    (from + count <= length (shown props) \/ count = 0 ->
     exists rows,
       foldr
         (fun i rows =>
            match shown props !! i with
            | Some f => rest <-! rows; JS.Ok (rowAt props f i :: rest)
            | None => JS.Throw "TypeError: frame is undefined"
            end)
         (JS.Ok []) (seq from count) = JS.Ok rows /\
       length rows = count /\
       forall k, k < count ->
         exists f, shown props !! (from + k) = Some f /\
                   rows !! k = Some (rowAt props f (from + k))) /\
    (length (shown props) < from + count -> 0 < count ->
     JS.threw
       (foldr
          (fun i rows =>
             match shown props !! i with
             | Some f => rest <-! rows; JS.Ok (rowAt props f i :: rest)
             | None => JS.Throw "TypeError: frame is undefined"
             end)
          (JS.Ok []) (seq from count)) = true).
Proof.
  induction count as [|count IH]; intros from.
  - split.
    + intros _. exists []. repeat split. intros k Hk. lia.
    + intros _ Hpos. lia.
  - destruct (IH (S from)) as [IHok IHthrow]. cbn [seq foldr]. split.
    + intros [Hrange | Hzero]; [|discriminate].
      destruct (lookup_lt_is_Some_2 (shown props) from) as [f Hf]; [lia|].
      rewrite Hf.
      destruct IHok as (rows & -> & Hlen & Hrows); [left; lia|].
      cbn [JS.bind]. eexists. split; [reflexivity|]. split; [cbn; lia|].
      intros [|k] Hk.
      * exists f. rewrite Nat.add_0_r. split; [exact Hf | reflexivity].
      * destruct (Hrows k) as (g & Hg & Hrow); [lia|].
        exists g. replace (from + S k) with (S from + k) by lia.
        split; [exact Hg | exact Hrow].
    + intros Hover _.
      destruct (shown props !! from) as [f|] eqn:Hf; [|reflexivity].
      destruct count as [|count'].
      * apply lookup_lt_Some in Hf. lia.
      * match goal with
        | |- JS.threw (JS.bind ?r _) = true =>
            assert (JS.threw r = true) as Hrest by (apply IHthrow; lia);
            destruct r; [discriminate | reflexivity]
        end.
Qed.

(** X5.  Asked for positions [firstIndex .. lastIndex] within the list,
    [renderItems] returns one row per position, in order: the row at offset
    [k] is the row of the frame at position [firstIndex + k], keyed by that
    position and striped by its parity, whichever frame stands there. *)
Theorem renderItems_in_range (props : ProfileTableViewProps)
    (firstIndex lastIndex : nat) :
  lastIndex < length (frameList sortBy (tableProfile props) (sortMethod props)) ->
  exists rows,
    renderItems sortBy props firstIndex lastIndex = JS.Ok rows /\
    length rows = S lastIndex - firstIndex /\
    rowKey <$> rows = seq firstIndex (S lastIndex - firstIndex) /\
    rowEven <$> rows = Nat.even <$> seq firstIndex (S lastIndex - firstIndex) /\
    forall k, k < S lastIndex - firstIndex ->
      exists f,
        frameList sortBy (tableProfile props) (sortMethod props) !! (firstIndex + k)
          = Some f /\
        rows !! k = Some (rowAt props f (firstIndex + k)).
Proof.
  intros Hrange. rewrite renderItems_unfold.
  destruct (proj1 (render_loop props (S lastIndex - firstIndex) firstIndex))
    as (rows & Hok & Hlen & Hrows).
  { destruct (Nat.le_gt_cases firstIndex lastIndex); [left | right]; lia. }
  exists rows. split; [exact Hok|]. split; [exact Hlen|].
  assert (forall (A : Type) (g : TableRow -> A) (h : nat -> A),
             (forall f i, g (rowAt props f i) = h i) ->
             g <$> rows = h <$> seq firstIndex (S lastIndex - firstIndex)) as Hmap.
  { intros A g h Hgh. apply list_eq. intros k.
    rewrite !list_lookup_fmap.
    destruct (Nat.lt_ge_cases k (S lastIndex - firstIndex)) as [Hk|Hk].
    - destruct (Hrows k Hk) as (f & _ & ->).
      rewrite lookup_seq_lt by exact Hk. cbn. now rewrite Hgh.
    - rewrite lookup_seq_ge by exact Hk.
      rewrite (lookup_ge_None_2 rows k) by lia. reflexivity. }
  split; [|split; [|exact Hrows]].
  - rewrite <- (list_fmap_id (seq _ _)). apply Hmap. reflexivity.
  - apply Hmap. intros f i. cbn [rowEven ProfileTableRowView index].
    destruct (Nat.even i) eqn:Heven.
    + apply Nat.even_spec in Heven. destruct Heven as [j ->].
      rewrite Nat.mul_comm, Nat.Div0.mod_mul. reflexivity.
    + destruct (Nat.eqb (i mod 2) 0) eqn:Hmod; [|reflexivity].
      apply Nat.eqb_eq in Hmod. apply Nat.Div0.mod_divides in Hmod as [j ->].
      rewrite Nat.even_mul in Heven. discriminate.
Qed.

(** X6.  [renderItems] throws exactly when it is asked for a position past the
    end of the list: the range is not empty and [lastIndex] is not a position
    of the list.  An empty range gives no row and reads no frame. *)
Theorem renderItems_throws_past_the_end (props : ProfileTableViewProps)
    (firstIndex lastIndex : nat) :
  (JS.threw (renderItems sortBy props firstIndex lastIndex) = true <->
   firstIndex <= lastIndex /\
   length (frameList sortBy (tableProfile props) (sortMethod props)) <= lastIndex) /\
  (lastIndex < firstIndex ->
   renderItems sortBy props firstIndex lastIndex = JS.Ok []).
Proof.
  rewrite renderItems_unfold.
  destruct (render_loop props (S lastIndex - firstIndex) firstIndex)
    as [Hok Hthrow].
  split; [split|].
  - intros Hthrew.
    destruct (Nat.le_gt_cases firstIndex lastIndex) as [Hle|Hgt].
    + split; [exact Hle|].
      destruct (Nat.le_gt_cases (length (shown props)) lastIndex) as [Hlen|Hlen];
        [exact Hlen|].
      destruct Hok as (rows & Hrows & _); [left; lia|].
      rewrite Hrows in Hthrew. discriminate.
    + destruct Hok as (rows & Hrows & _); [right; lia|].
      rewrite Hrows in Hthrew. discriminate.
  - intros [Hle Hlen]. apply Hthrow; lia.
  - intros Hgt. replace (S lastIndex - firstIndex) with 0 by lia. reflexivity.
Qed.

End RenderedRows.

(** ** Scrolling the selected frame into view *)

Section ListView.
Import LibProfile ProfileTableView.

Lemma indexOf_Some (frameList : list Frame) (f : Frame) :
  forall i,
    indexOf frameList f = Some i <->
    frameList !! i = Some f /\
    (forall j, j < i -> frameList !! j <> Some f).
Proof.
  induction frameList as [|g rest IH]; intros i; cbn [indexOf sameFrame].
  - split; [discriminate|]. intros [Hat _]. discriminate.
  - destruct (decide (g = f)) as [Hsame|Hother].
    + rewrite bool_decide_eq_true_2 by exact Hsame. split.
      * intros [= <-]. split; [now rewrite Hsame|]. intros j Hj. lia.
      * intros [_ Hfirst]. destruct i as [|i]; [reflexivity|].
        exfalso. apply (Hfirst 0); [lia | now rewrite Hsame].
    + rewrite bool_decide_eq_false_2 by exact Hother. split.
      * intros Hi. destruct (indexOf rest f) as [i'|]; [|discriminate].
        cbn in Hi. injection Hi as <-.
        destruct (proj1 (IH i') eq_refl) as [Hat Hfirst]. split; [exact Hat|].
        intros [|j] Hj Hh; cbn in Hh.
        -- injection Hh as Hh. contradiction.
        -- apply (Hfirst j); [lia | exact Hh].
      * intros [Hat Hfirst]. destruct i as [|i].
        -- cbn in Hat. injection Hat as Hat. contradiction.
        -- cbn in Hat.
           assert (indexOf rest f = Some i) as ->; [|reflexivity].
           apply IH. split; [exact Hat|].
           intros j Hj. apply (Hfirst (S j)). lia.
Qed.

(** In a list that holds each frame once, the frame is found where it is. *)
Lemma indexOf_NoDup (frameList : list Frame) (f : Frame) (i : nat) :
  NoDup frameList ->
  indexOf frameList f = Some i <-> frameList !! i = Some f.
Proof.
  intros Hnodup. rewrite indexOf_Some. split; [now intros [Hat _]|].
  intros Hat. split; [exact Hat|]. intros j Hj Hat'.
  pose proof (NoDup_lookup _ _ _ _ Hnodup Hat Hat'). lia.
Qed.

Lemma listViewCallback_scroll (selectedFrame : option Frame)
    (frameList : list Frame) (current listView : option ScrollableListView)
    (i : nat) :
  (listViewCallback selectedFrame frameList current listView).2 = Some i <->
  listView <> current /\
  is_Some listView /\
  exists f, selectedFrame = Some f /\ indexOf frameList f = Some i.
Proof.
  unfold listViewCallback.
  destruct (decide (listView = current)) as [Hsame|Hnew].
  - rewrite bool_decide_eq_true_2 by exact Hsame. cbn. split; [discriminate|].
    intros [Hne _]. contradiction.
  - rewrite bool_decide_eq_false_2 by exact Hnew.
    destruct selectedFrame as [f|], listView as [view|]; cbn.
    + destruct (indexOf frameList f) as [i'|] eqn:Hindex; cbn.
      * split.
        -- intros [= <-]. split; [exact Hnew|]. split; [eauto|]. eauto.
        -- intros (_ & _ & f' & [= <-] & Hi). congruence.
      * split; [discriminate|].
        intros (_ & _ & f' & [= <-] & Hi). congruence.
    + split; [discriminate|]. intros (_ & [? [=]] & _).
    + split; [discriminate|]. intros (_ & _ & f & [=] & _).
    + split; [discriminate|]. intros (_ & [? [=]] & _).
Qed.

Lemma listViewCallback_ref (selectedFrame : option Frame)
    (frameList : list Frame) (current listView : option ScrollableListView) :
  (listViewCallback selectedFrame frameList current listView).1 = listView.
Proof.
  unfold listViewCallback.
  destruct (decide (listView = current)) as [Hsame|Hnew].
  - rewrite bool_decide_eq_true_2 by exact Hsame. now cbn.
  - rewrite bool_decide_eq_false_2 by exact Hnew.
    destruct selectedFrame, listView; cbn; try reflexivity.
    destruct (indexOf frameList _); reflexivity.
Qed.

(** X7.  For a list that holds each of its frame objects once, and a selected
    frame that is no other object than the frame of the list with its key:
    the list view is scrolled exactly when a view other than the one
    remembered is mounted, a frame is selected and that very frame is in the
    list; the position scrolled to is then the position of the selected
    frame. *)
Theorem scrolls_to_the_selected_frame (selectedFrame : option Frame)
    (frameList : list Frame) (current listView : option ScrollableListView)
    (i : nat) :
  NoDup frameList ->
  (forall f g, selectedFrame = Some f -> g ∈ frameList ->
               key (info g) = key (info f) -> g = f) ->
  (listViewCallback selectedFrame frameList current listView).2 = Some i <->
  listView <> current /\
  is_Some listView /\
  exists f, selectedFrame = Some f /\ frameList !! i = Some f.
Proof.
  intros Hnodup _.
  rewrite listViewCallback_scroll. split.
  - intros (Hnew & Hview & f & Hf & Hi). split; [exact Hnew|]. split; [exact Hview|].
    exists f. split; [exact Hf|]. now apply indexOf_NoDup in Hi.
  - intros (Hnew & Hview & f & Hf & Hat).
    split; [exact Hnew|]. split; [exact Hview|].
    exists f. split; [exact Hf|]. now apply indexOf_NoDup.
Qed.

(** X8.  After the callback the table remembers the view it was called with,
    null included, and a call with the view it remembers does nothing.  A
    call with null therefore makes it forget the view: called with a view
    after that, be it the one it held before, it scrolls to the frame selected
    by then, as for a view mounted for the first time. *)
Theorem callback_remembers_the_view (selectedFrame laterSelectedFrame : option Frame)
    (frameList laterFrameList : list Frame)
    (current listView : option ScrollableListView) :
  (listViewCallback selectedFrame frameList current listView).1 = listView /\
  listViewCallback laterSelectedFrame laterFrameList
    (listViewCallback selectedFrame frameList current listView).1 listView
  = (listView, None) /\
  (forall (view : ScrollableListView) (f : Frame) (i : nat),
     NoDup laterFrameList ->
     laterFrameList !! i = Some f ->
     listViewCallback (Some f) laterFrameList
       (listViewCallback selectedFrame frameList current None).1 (Some view)
     = (Some view, Some i)).
Proof.
  rewrite !listViewCallback_ref.
  split; [reflexivity|]. split.
  - unfold listViewCallback.
    rewrite bool_decide_eq_true_2 by reflexivity. reflexivity.
  - intros view f i Hnodup Hat.
    apply (indexOf_NoDup _ _ _ Hnodup) in Hat.
    unfold listViewCallback.
    rewrite bool_decide_eq_false_2 by discriminate.
    now rewrite Hat.
Qed.

Variable sortBy : forall K : Type, LibUtils.JSLess K ->
  list Frame -> (Frame -> K) -> list Frame.

(** X9.  Where the selected frame is one of the frame objects of the profile,
    the position the list view is scrolled to is the highlighted row: rendered
    on its own, that position gives the one row keyed by it, and the row is
    marked as selected. *)
Theorem scrolled_row_is_highlighted (props : ProfileTableViewProps)
    (current listView : option ScrollableListView) (i : nat) :
  (forall f, tableSelectedFrame props = Some f ->
             f ∈ forEachFrame (tableProfile props)) ->
  (listViewCallback (tableSelectedFrame props)
     (frameList sortBy (tableProfile props) (sortMethod props))
     current listView).2 = Some i ->
  exists row,
    renderItems sortBy props i i = JS.Ok [row] /\
    rowKey row = i /\
    rowSelected row = true.
Proof.
  intros _ Hscroll.
  apply listViewCallback_scroll in Hscroll as (_ & _ & f & Hselected & Hindex).
  apply indexOf_Some in Hindex as [Hat _].
  rewrite renderItems_unfold.
  replace (S i - i) with 1 by lia. cbn [seq foldr].
  rewrite Hat. cbn [JS.bind]. eexists. split; [reflexivity|].
  split; [reflexivity|].
  cbn [rowSelected ProfileTableRowView frame ProfileTableView.selectedFrame].
  rewrite Hselected. cbn [sameFrame]. now apply bool_decide_eq_true.
Qed.

End ListView.

(** ** From the container to a click on a row *)

Section RowClicks.
Import LibProfile Store ProfileTableView.

Variable sortBy : forall K : Type, LibUtils.JSLess K ->
  list Frame -> (Frame -> K) -> list Frame.
Variables (ViewState GLCanvas : Type).
Variables (hash : string -> N) (paletteSize : N).
Variable cssColorOfBucket : option N -> string.

(** Every row [renderItems] returns is the row of the frame at its position. *)
Lemma renderItems_rows (props : ProfileTableViewProps) (firstIndex lastIndex : nat)
    (rows : list TableRow) (k : nat) (row : TableRow) :
  renderItems sortBy props firstIndex lastIndex = JS.Ok rows ->
  rows !! k = Some row ->
  exists f,
    frameList sortBy (tableProfile props) (sortMethod props) !! (firstIndex + k)
      = Some f /\
    row = ProfileTableRowView
            (mkRowProps f (firstIndex + k) (tableProfile props)
               (tableSelectedFrame props)
               (fun f => tableSetSelectedFrame props (Some f))
               (tableGetCSSColorForFrame props)).
Proof.
  rewrite renderItems_unfold. intros Hok Hrow.
  destruct (render_loop sortBy props (S lastIndex - firstIndex) firstIndex)
    as [Hin Hout].
  destruct (Nat.le_gt_cases (firstIndex + (S lastIndex - firstIndex))
              (length (frameList sortBy (tableProfile props) (sortMethod props))))
    as [Hrange|Hover].
  - destruct Hin as (rows' & Hok' & Hlen & Hrows); [now left|].
    rewrite Hok in Hok'. injection Hok' as <-.
    destruct (Hrows k) as (f & Hf & Hrow').
    { rewrite <- Hlen. eapply lookup_lt_Some, Hrow. }
    exists f. split; [exact Hf|]. congruence.
  - destruct (Nat.eq_dec (S lastIndex - firstIndex) 0) as [Hzero|Hpos].
    + destruct Hin as (rows' & Hok' & Hlen & _); [now right|].
      rewrite Hok in Hok'. injection Hok' as <-.
      apply lookup_lt_Some in Hrow. lia.
    + rewrite Hok in Hout. discriminate Hout; lia.
Qed.

(** X10.  A click on a row of the table the container renders dispatches the
    selection of the frame of that row, for the profile the container was
    given: the row at offset [k] of [renderItems] carries the action that
    selects the frame at position [firstIndex + k] of the list sorted by the
    store's sort method, with the index of the active profile, and shows that
    frame's name and color. *)
Theorem row_click_selects_its_frame
    (ownProps : ProfileTableViewContainerProps ViewState)
    (state : AppState GLCanvas SortMethod)
    (props : ProfileTableViewProps) (firstIndex lastIndex : nat)
    (rows : list TableRow) (k : nat) (row : TableRow) :
  ProfileTableViewContainer hash paletteSize cssColorOfBucket ownProps state
    = JS.Ok props ->
  renderItems sortBy props firstIndex lastIndex = JS.Ok rows ->
  rows !! k = Some row ->
  exists p f,
    Store.profile (activeProfileState ownProps) = Some p /\
    frameList sortBy p (tableSortMethod state) !! (firstIndex + k) = Some f /\
    onClick row
      = setSelectedFrame (Store.index (activeProfileState ownProps)) (Some f) /\
    label row = name (info f) /\
    chitColor row
      = StoreGetters.createGetCSSColorForFrame cssColorOfBucket
          (StoreGetters.getFrameToColorBucket hash paletteSize p) f.
Proof.
  intros Hcontainer Hrender Hrow.
  destruct (renderItems_rows props firstIndex lastIndex rows k row Hrender Hrow)
    as (f & Hf & ->).
  unfold ProfileTableViewContainer, required in Hcontainer.
  destruct (Store.profile (activeProfileState ownProps)) as [p|]; [|discriminate].
  cbn [JS.bind] in Hcontainer. injection Hcontainer as <-.
  exists p, f. split; [reflexivity|]. split; [exact Hf|].
  repeat split.
Qed.

End RowClicks.

(** ** The props of the inverted-callers flamechart *)

Section InvertedProps.
Import LibProfile Store.

Variables (GLCanvas CanvasContext FlamechartRenderer : Type).
Variables (ViewStateValue CallbackArg AppStore : Type).
Variable profileFormatValue : Profile -> N -> string.
Variables (hash : string -> N) (paletteSize : N).
Variable cssColorOfBucket : option N -> string.
Variable getCanvasContext : GLCanvas -> CanvasContext.
Variable getInvertedCallerFlamegraphRenderer :
  CanvasContext -> InvertedCallerFlamegraphView.Flamechart -> FlamechartRenderer.

Local Abbreviation PropValue :=
  (InvertedCallerFlamegraphView.PropValue CanvasContext FlamechartRenderer
     ViewStateValue CallbackArg AppStore).

Variable useFlamechartSetters : FlamechartID -> nat -> gmap string PropValue.

Local Abbreviation invertedView :=
  (InvertedCallerFlamegraphView.InvertedCallerFlamegraphView
     (SortMethod := ProfileTableView.SortMethod)
     profileFormatValue hash paletteSize cssColorOfBucket getCanvasContext
     getInvertedCallerFlamegraphRenderer useFlamechartSetters).

Local Abbreviation tableContainer :=
  (ProfileTableView.ProfileTableViewContainer
     (ViewState := gmap string PropValue) (GLCanvas := GLCanvas)
     hash paletteSize cssColorOfBucket).

Local Abbreviation ViewProps :=
  (InvertedCallerFlamegraphView.FlamechartViewContainerProps
     CanvasContext FlamechartRenderer ViewStateValue CallbackArg AppStore).

(** The props of a render, attribute by attribute, the last one outermost. *)
Lemma invertedView_attributes (ownProps : ViewProps)
    (state : AppState GLCanvas ProfileTableView.SortMethod)
    (props : gmap string PropValue) :
  invertedView ownProps state = JS.Ok props ->
  exists p canvas cc flamechart,
    profile (InvertedCallerFlamegraphView.activeProfileState ownProps) = Some p /\
    glCanvas state = Some canvas /\
    callerCallee (sandwichViewState
      (InvertedCallerFlamegraphView.activeProfileState ownProps)) = Some cc /\
    props
    = invertedCallerFlamegraph cc ∪
      ({[ "setSelectedNode" := InvertedCallerFlamegraphView.PCallback LibUtils.noop ]} ∪
       (useFlamechartSetters SANDWICH_INVERTED_CALLERS
          (index (InvertedCallerFlamegraphView.activeProfileState ownProps)) ∪
        ({[ "getCSSColorForFrame" :=
              InvertedCallerFlamegraphView.PCSSColor
                (StoreGetters.createGetCSSColorForFrame cssColorOfBucket
                   (StoreGetters.getFrameToColorBucket hash paletteSize
                      (if flattenRecursion state
                       then StoreGetters.getProfileWithRecursionFlattened p
                       else p))) ]} ∪
         ({[ "canvasContext" :=
               InvertedCallerFlamegraphView.PCanvasContext (getCanvasContext canvas) ]} ∪
          ({[ "flamechartRenderer" :=
                InvertedCallerFlamegraphView.PRenderer
                  (getInvertedCallerFlamegraphRenderer (getCanvasContext canvas)
                     flamechart) ]} ∪
           ({[ "flamechart" := InvertedCallerFlamegraphView.PFlamechart flamechart ]} ∪
            ({[ "renderInverted" := InvertedCallerFlamegraphView.PBool true ]} ∪
             ∅))))))).
Proof.
  unfold InvertedCallerFlamegraphView.InvertedCallerFlamegraphView, required.
  destruct (profile (InvertedCallerFlamegraphView.activeProfileState ownProps))
    as [p|]; [|discriminate].
  destruct (glCanvas state) as [canvas|]; [|discriminate].
  destruct (callerCallee (sandwichViewState
              (InvertedCallerFlamegraphView.activeProfileState ownProps)))
    as [cc|]; [|discriminate].
  cbn [JS.bind]. intros [= <-].
  exists p, canvas, cc. eexists.
  split; [reflexivity|]. split; [reflexivity|]. split; [reflexivity|].
  unfold InvertedCallerFlamegraphView.jsxProps. cbn [foldl]. reflexivity.
Qed.

(** X11.  The view state stored for the flamechart is spread last, so it
    always wins: every entry of it reaches the flamechart as it is, whatever
    the view or the setters say under the same name, the no-op for
    [setSelectedNode] included. *)
Theorem view_state_reaches_the_flamechart (ownProps : ViewProps)
    (state : AppState GLCanvas ProfileTableView.SortMethod)
    (props : gmap string PropValue)
    (cc : CallerCalleeState (gmap string PropValue))
    (k : string) (v : PropValue) :
  invertedView ownProps state = JS.Ok props ->
  callerCallee (sandwichViewState
    (InvertedCallerFlamegraphView.activeProfileState ownProps)) = Some cc ->
  invertedCallerFlamegraph cc !! k = Some v ->
  props !! k = Some v.
Proof.
  intros Hok Hcc Hk.
  destruct (invertedView_attributes ownProps state props Hok)
    as (p & canvas & cc' & flamechart & _ & _ & Hcc' & ->).
  rewrite Hcc in Hcc'. injection Hcc' as <-.
  now apply lookup_union_Some_l.
Qed.

(** X12.  The flamechart is rendered with the five props the view computes,
    [setSelectedNode], the setters of [useFlamechartSetters] and the entries
    of the stored view state, and with nothing else. *)
Theorem flamechart_prop_names (ownProps : ViewProps)
    (state : AppState GLCanvas ProfileTableView.SortMethod)
    (props : gmap string PropValue)
    (cc : CallerCalleeState (gmap string PropValue)) :
  invertedView ownProps state = JS.Ok props ->
  callerCallee (sandwichViewState
    (InvertedCallerFlamegraphView.activeProfileState ownProps)) = Some cc ->
  dom props
  = {[ "renderInverted"; "flamechart"; "flamechartRenderer"; "canvasContext";
       "getCSSColorForFrame"; "setSelectedNode" ]}
    ∪ dom (useFlamechartSetters SANDWICH_INVERTED_CALLERS
             (index (InvertedCallerFlamegraphView.activeProfileState ownProps)))
    ∪ dom (invertedCallerFlamegraph cc).
Proof.
  intros Hok Hcc.
  destruct (invertedView_attributes ownProps state props Hok)
    as (p & canvas & cc' & flamechart & _ & _ & Hcc' & ->).
  rewrite Hcc in Hcc'. injection Hcc' as <-.
  rewrite !dom_union_L, !dom_singleton_L, dom_empty_L.
  apply set_eq. intros name.
  rewrite !elem_of_union, !elem_of_singleton, elem_of_empty. tauto.
Qed.

(** X13.  Unless the setters or the stored view state carry an entry of the
    same name, the renderer handed to the flamechart is the one for the
    flamechart and the canvas context handed to it, the context being that of
    the canvas in the store, and the flamechart is drawn inverted. *)
Theorem renderer_matches_flamechart_and_context (ownProps : ViewProps)
    (state : AppState GLCanvas ProfileTableView.SortMethod)
    (props : gmap string PropValue)
    (cc : CallerCalleeState (gmap string PropValue)) :
  invertedView ownProps state = JS.Ok props ->
  callerCallee (sandwichViewState
    (InvertedCallerFlamegraphView.activeProfileState ownProps)) = Some cc ->
  (forall k, k ∈ [ "renderInverted"; "flamechart"; "flamechartRenderer";
                   "canvasContext" ] ->
     invertedCallerFlamegraph cc !! k = None /\
     useFlamechartSetters SANDWICH_INVERTED_CALLERS
       (index (InvertedCallerFlamegraphView.activeProfileState ownProps)) !! k
       = None) ->
  exists canvas flamechart,
    glCanvas state = Some canvas /\
    props !! "canvasContext"
      = Some (InvertedCallerFlamegraphView.PCanvasContext (getCanvasContext canvas)) /\
    props !! "flamechart"
      = Some (InvertedCallerFlamegraphView.PFlamechart flamechart) /\
    props !! "flamechartRenderer"
      = Some (InvertedCallerFlamegraphView.PRenderer
                (getInvertedCallerFlamegraphRenderer (getCanvasContext canvas)
                   flamechart)) /\
    props !! "renderInverted" = Some (InvertedCallerFlamegraphView.PBool true).
Proof.
  intros Hok Hcc Hfree.
  destruct (invertedView_attributes ownProps state props Hok)
    as (p & canvas & cc' & flamechart & _ & Hcanvas & Hcc' & ->).
  rewrite Hcc in Hcc'. injection Hcc' as <-.
  exists canvas, flamechart. split; [exact Hcanvas|].
  assert (forall k, k ∈ [ "renderInverted"; "flamechart"; "flamechartRenderer";
                          "canvasContext" ] ->
            forall rest : gmap string PropValue,
              (invertedCallerFlamegraph cc ∪
               ({[ "setSelectedNode" :=
                     InvertedCallerFlamegraphView.PCallback LibUtils.noop ]} ∪
                (useFlamechartSetters SANDWICH_INVERTED_CALLERS
                   (index (InvertedCallerFlamegraphView.activeProfileState ownProps)) ∪
                 ({[ "getCSSColorForFrame" :=
                       InvertedCallerFlamegraphView.PCSSColor
                         (StoreGetters.createGetCSSColorForFrame cssColorOfBucket
                            (StoreGetters.getFrameToColorBucket hash paletteSize
                               (if flattenRecursion state
                                then StoreGetters.getProfileWithRecursionFlattened p
                                else p))) ]} ∪ rest)))) !! k
              = rest !! k) as Hskip.
  { intros k Hk rest. destruct (Hfree k Hk) as [Hstate Hsetters].
    rewrite (lookup_union_r _ _ _ Hstate).
    rewrite lookup_union_r.
    2:{ apply lookup_singleton_ne. intros <-.
        repeat (apply elem_of_cons in Hk as [Hk|Hk]; [discriminate|]).
        inversion Hk. }
    rewrite (lookup_union_r _ _ _ Hsetters).
    rewrite lookup_union_r; [reflexivity|].
    apply lookup_singleton_ne. intros <-.
    repeat (apply elem_of_cons in Hk as [Hk|Hk]; [discriminate|]).
    inversion Hk. }
  repeat split;
    rewrite Hskip
      by (repeat first [apply list_elem_of_here | apply list_elem_of_further]).
  - apply lookup_union_Some_l, lookup_singleton_eq.
  - rewrite lookup_union_r by reflexivity.
    rewrite lookup_union_r by reflexivity.
    apply lookup_union_Some_l, lookup_singleton_eq.
  - rewrite lookup_union_r by reflexivity.
    apply lookup_union_Some_l, lookup_singleton_eq.
  - rewrite lookup_union_r by reflexivity.
    rewrite lookup_union_r by reflexivity.
    rewrite lookup_union_r by reflexivity.
    apply lookup_union_Some_l, lookup_singleton_eq.
Qed.

(** X14.  Given the same active profile, the table renders whenever the
    inverted-callers view does, and then it shows the profile of the state
    with the frame highlighted that the inverted-callers view is drawn
    around. *)
Theorem table_highlights_the_inverted_frame (ownProps : ViewProps)
    (tableOwnProps : ProfileTableView.ProfileTableViewContainerProps
                       (gmap string PropValue))
    (state : AppState GLCanvas ProfileTableView.SortMethod)
    (props : gmap string PropValue) :
  invertedView ownProps state = JS.Ok props ->
  ProfileTableView.activeProfileState tableOwnProps
    = InvertedCallerFlamegraphView.activeProfileState ownProps ->
  exists tableProps p cc,
    tableContainer tableOwnProps state = JS.Ok tableProps /\
    profile (InvertedCallerFlamegraphView.activeProfileState ownProps) = Some p /\
    callerCallee (sandwichViewState
      (InvertedCallerFlamegraphView.activeProfileState ownProps)) = Some cc /\
    ProfileTableView.tableProfile tableProps = p /\
    ProfileTableView.tableSelectedFrame tableProps = Some (selectedFrame cc) /\
    ProfileTableView.sortMethod tableProps = tableSortMethod state.
Proof.
  intros Hok Hsame.
  destruct (invertedView_attributes ownProps state props Hok)
    as (p & canvas & cc & flamechart & Hp & _ & Hcc & _).
  unfold ProfileTableView.ProfileTableViewContainer, required.
  rewrite Hsame, Hp, Hcc. cbn [JS.bind].
  eexists. exists p, cc. split; [reflexivity|]. repeat split.
Qed.

End InvertedProps.

(** ** The further properties at the scenario *)

Lemma renderItems_in_range_witness :
  exists rows,
    ProfileTableView.renderItems ScenarioViews.modelSortBy ScenarioViews.tableProps 1 2
      = JS.Ok rows /\
    ProfileTableView.rowKey <$> rows = [1; 2].
Proof.
  destruct (renderItems_in_range ScenarioViews.modelSortBy ScenarioViews.tableProps 1 2)
    as (rows & Hok & _ & Hkeys & _).
  - vm_compute. lia.
  - exists rows. split; [exact Hok | exact Hkeys].
Defined.

Lemma scrolls_to_the_selected_frame_witness :
  (ProfileTableView.listViewCallback (Some ScenarioViews.selectedB)
     (ProfileTableView.frameList ScenarioViews.modelSortBy Scenario.twoCallers
        (ProfileTableView.mkSortMethod ProfileTableView.SELF
           ProfileTableView.DESCENDING))
     None (Some 1%positive)).2 = Some 0.
Proof.
  apply (scrolls_to_the_selected_frame (Some ScenarioViews.selectedB)).
  - apply (@bool_decide_unpack _ (@NoDup_dec _ LibProfile.Frame_eq_dec _)).
    vm_compute. exact I.
  - intros f g [= <-] Hg Hkey. vm_compute in Hg.
    repeat (apply elem_of_cons in Hg as [-> | Hg];
            [first [reflexivity | vm_compute in Hkey; discriminate]|]).
    inversion Hg.
  - split; [discriminate|]. split; [eauto|].
    exists ScenarioViews.selectedB. split; reflexivity.
Defined.

Lemma scrolled_row_is_highlighted_witness :
  exists row,
    ProfileTableView.renderItems ScenarioViews.modelSortBy ScenarioViews.tableProps 0 0
      = JS.Ok [row] /\
    ProfileTableView.rowKey row = 0 /\
    ProfileTableView.rowSelected row = true.
Proof.
  refine (scrolled_row_is_highlighted ScenarioViews.modelSortBy
            ScenarioViews.tableProps None (Some 1%positive) 0 _ _).
  - intros f [= <-]. vm_compute.
    do 2 apply list_elem_of_further. apply list_elem_of_here.
  - vm_compute. reflexivity.
Defined.

Lemma row_click_selects_its_frame_witness :
  exists p f,
    Store.profile (ProfileTableView.activeProfileState ScenarioViews.tableOwnPropsSelected)
      = Some p /\
    ProfileTableView.frameList ScenarioViews.modelSortBy p
      (Store.tableSortMethod ScenarioViews.state) !! (0 + 0) = Some f /\
    ProfileTableView.onClick ScenarioViews.firstRow
      = ProfileTableView.setSelectedFrame
          (Store.index
             (ProfileTableView.activeProfileState ScenarioViews.tableOwnPropsSelected))
          (Some f) /\
    ProfileTableView.label ScenarioViews.firstRow = LibProfile.name (LibProfile.info f) /\
    ProfileTableView.chitColor ScenarioViews.firstRow
      = StoreGetters.createGetCSSColorForFrame (fun _ => "#000")
          (StoreGetters.getFrameToColorBucket (fun k => N.of_nat (String.length k)) 8 p)
          f.
Proof.
  refine (row_click_selects_its_frame ScenarioViews.modelSortBy
            ScenarioViews.Props unit (fun k => N.of_nat (String.length k)) 8
            (fun _ => "#000") ScenarioViews.tableOwnPropsSelected ScenarioViews.state
            ScenarioViews.containerProps 0 0 [ScenarioViews.firstRow] 0
            ScenarioViews.firstRow _ _ _).
  - reflexivity.
  - reflexivity.
  - reflexivity.
Defined.

Lemma view_state_reaches_the_flamechart_witness :
  exists props,
    ScenarioViews.render ScenarioViews.ownProps = JS.Ok props /\
    props !! "selectedNode" = Some (InvertedCallerFlamegraphView.PState 0%N).
Proof.
  eexists. split; [reflexivity|].
  refine (view_state_reaches_the_flamechart unit unit unit N string (option string)
            (fun _ _ => "") (fun k => N.of_nat (String.length k)) 8
            (fun _ => "#000") (fun canvas => canvas) (fun _ _ => tt)
            ScenarioViews.setters ScenarioViews.ownProps ScenarioViews.state _
            (Store.mkCallerCallee ScenarioViews.selectedB ScenarioViews.viewState)
            "selectedNode" _ eq_refl eq_refl eq_refl).
Defined.

Lemma flamechart_prop_names_witness :
  exists props,
    ScenarioViews.render ScenarioViews.ownProps = JS.Ok props /\
    dom props
    = {[ "renderInverted"; "flamechart"; "flamechartRenderer"; "canvasContext";
         "getCSSColorForFrame"; "setSelectedNode" ]}
      ∪ dom (ScenarioViews.setters Store.SANDWICH_INVERTED_CALLERS 0)
      ∪ dom ScenarioViews.viewState.
Proof.
  eexists. split; [reflexivity|].
  refine (flamechart_prop_names unit unit unit N string (option string)
            (fun _ _ => "") (fun k => N.of_nat (String.length k)) 8
            (fun _ => "#000") (fun canvas => canvas) (fun _ _ => tt)
            ScenarioViews.setters ScenarioViews.ownProps ScenarioViews.state _
            (Store.mkCallerCallee ScenarioViews.selectedB ScenarioViews.viewState)
            eq_refl eq_refl).
Defined.

Lemma renderer_matches_flamechart_and_context_witness :
  exists props,
    ScenarioViews.render ScenarioViews.ownProps = JS.Ok props /\
    props !! "flamechartRenderer" = Some (InvertedCallerFlamegraphView.PRenderer tt) /\
    props !! "renderInverted" = Some (InvertedCallerFlamegraphView.PBool true).
Proof.
  eexists. split; [reflexivity|].
  destruct (renderer_matches_flamechart_and_context
              unit unit unit N string (option string)
              (fun _ _ => "") (fun k => N.of_nat (String.length k)) 8
              (fun _ => "#000") (fun canvas => canvas) (fun _ _ => tt)
              ScenarioViews.setters ScenarioViews.ownProps ScenarioViews.state _
              (Store.mkCallerCallee ScenarioViews.selectedB ScenarioViews.viewState)
              eq_refl eq_refl)
    as (canvas & flamechart & _ & _ & _ & Hrenderer & Hinverted).
  - intros k Hk.
    repeat (apply elem_of_cons in Hk as [-> | Hk]; [split; reflexivity|]).
    inversion Hk.
  - split; [exact Hrenderer | exact Hinverted].
Defined.

Lemma table_highlights_the_inverted_frame_witness :
  exists tableProps,
    ProfileTableView.ProfileTableViewContainer
      (fun k => N.of_nat (String.length k)) 8 (fun _ => "#000")
      ScenarioViews.tableOwnPropsSelected ScenarioViews.state
      = JS.Ok tableProps /\
    ProfileTableView.tableSelectedFrame tableProps = Some ScenarioViews.selectedB.
Proof.
  destruct (table_highlights_the_inverted_frame
              unit unit unit N string (option string)
              (fun _ _ => "") (fun k => N.of_nat (String.length k)) 8
              (fun _ => "#000") (fun canvas => canvas) (fun _ _ => tt)
              ScenarioViews.setters ScenarioViews.ownProps
              ScenarioViews.tableOwnPropsSelected ScenarioViews.state _
              eq_refl eq_refl)
    as (tableProps & p & cc & Hok & _ & Hcc & _ & Hselected & _).
  exists tableProps. split; [exact Hok|].
  rewrite Hselected. injection Hcc as <-. reflexivity.
Defined.
